(** * Vehicle kinematics and fleet placement of the traffic simulation

    A shallow embedding of [src/simulation/vehicle.py] (class [Vehicle]) and
    of [src/simulation/simulation.py] (class [Simulator]).

    Modelling conventions.
    - Python [float] values are real numbers ([R]): arithmetic is exact, and
      rounding, infinities, NaN and signed zeros are outside the model.
    - Python [int] values are [Z]; list subscripts follow Python, negative
      subscripts included ([py_getitem]).
    - A [dict] is a [gmap]; a missing key raises [KeyError], a subscript out
      of range raises [IndexError].
    - A method that mutates [self] is a function from the object before the
      call to an [outcome]: the object after the call, together with the
      exception when the call raised. *)

From Stdlib Require Import Reals Lra Lia ZArith List.
From stdpp Require Import base option gmap strings.
Import ListNotations.

Open Scope R_scope.

(** ** Python primitives *)

Inductive exn : Set := KeyError | IndexError.

(** [l[i]] for a Python list: a negative subscript counts from the end. *)
Definition py_getitem {A : Type} (l : list A) (i : Z) : exn + A :=
  let n := Z.of_nat (List.length l) in
  let j := if (i <? 0)%Z then (i + n)%Z else i in
  if ((j <? 0) || (n <=? j))%Z then inl IndexError
  else match nth_error l (Z.to_nat j) with
       | Some x => inr x
       | None => inl IndexError
       end.

(** [d[k]] for a Python dict. *)
Definition py_dict_get `{Countable K} {A : Type} (d : gmap K A) (k : K) : exn + A :=
  match d !! k with
  | Some x => inr x
  | None => inl KeyError
  end.

(** Sequencing of computations that may raise. *)
Definition bind_exn {A B : Type} (m : exn + A) (k : A -> exn + B) : exn + B :=
  match m with
  | inl e => inl e
  | inr x => k x
  end.

Notation "x ← m ; k" := (bind_exn m (fun x => k))
  (at level 20, m at level 100, k at level 200, only parsing).

Definition Rltb (x y : R) : bool := if Rlt_dec x y then true else false.
Definition Rgtb (x y : R) : bool := Rltb y x.
Definition Rgeb (x y : R) : bool := if Rge_dec x y then true else false.

(** Python's [min(a, b)] returns [a] unless [b < a]; [max(a, b)] returns [a]
    unless [b > a]. *)
Definition py_min (a b : R) : R := if Rltb b a then b else a.
Definition py_max (a b : R) : R := if Rgtb b a then b else a.

(** [math.atan2(y, x)] on the reals, with values in (-PI, PI]. *)
Definition atan2 (y x : R) : R :=
  if Rltb 0 x then atan (y / x)
  else if Rltb x 0 then
         (if Rltb y 0 then atan (y / x) - PI else atan (y / x) + PI)
  else if Rltb 0 y then PI / 2
  else if Rltb y 0 then - (PI / 2)
  else 0.

(** [math.degrees(x)]. *)
Definition degrees (x : R) : R := x * (180 / PI).

(** ** The road network, as the vehicle reads it *)

(** The turn names ['left'], ['through'] and ['right']. *)
Inductive turn : Set := Left | Through | Right.

Definition turn_eqb (a b : turn) : bool :=
  match a, b with
  | Left, Left | Through, Through | Right, Right => true
  | _, _ => false
  end.

(** Modelled from the spec: the class [Street] is not part of the sources at
    hand; the record lists the attributes that [Vehicle] reads. *)
Module Street.
Record t : Type := mk {
  id : Z;
  length : R;
  num_lanes : Z;
  speed_limit : R;
  coords : list (R * R);
  lane_dirs : list (list turn);
  end_node : string
}.
End Street.

(** Modelled from the spec: the class [Intersection] is not part of the
    sources at hand; [can_vehicle_enter street_id lane_index] is its
    admission query, the one method that [Vehicle] calls. *)
Module Intersection.
Record t : Type := mk {
  can_vehicle_enter : Z -> Z -> bool
}.
End Intersection.

(** ** Vehicle *)

Definition VEHICLE_PROFILES : list (string * (R * R)) :=
  [ ("raser"%string, (1.50, 0.8));
    ("normal"%string, (1.00, 1.0));
    ("slow_driver"%string, (0.75, 1.0)) ].

Fixpoint profile_lookup (tbl : list (string * (R * R))) (p : string)
  : exn + (R * R) :=
  match tbl with
  | [] => inl KeyError
  | (k, x) :: tbl' => if String.eqb k p then inr x else profile_lookup tbl' p
  end.

Module Vehicle.

Record t : Type := mk {
  vehicle_id : Z;
  profile : string;
  speed_factor : R;
  reaction_time : R;
  current_street : Street.t;
  lane_index : Z;
  position_s : R;
  route_streets : list Z;
  route_index : Z;
  streets_map : gmap Z Street.t;
  intersections_map : gmap string Intersection.t;
  speed : R;
  max_accel : R;
  max_decel : R;
  base_speed_limit : R;
  done : bool
}.

Definition set_lane_index (ln : Z) (v : t) : t :=
  mk (vehicle_id v) (profile v) (speed_factor v) (reaction_time v)
     (current_street v) ln (position_s v) (route_streets v) (route_index v)
     (streets_map v) (intersections_map v) (speed v) (max_accel v)
     (max_decel v) (base_speed_limit v) (done v).

Definition set_speed (s : R) (v : t) : t :=
  mk (vehicle_id v) (profile v) (speed_factor v) (reaction_time v)
     (current_street v) (lane_index v) (position_s v) (route_streets v)
     (route_index v) (streets_map v) (intersections_map v) s (max_accel v)
     (max_decel v) (base_speed_limit v) (done v).

Definition set_position_s (p : R) (v : t) : t :=
  mk (vehicle_id v) (profile v) (speed_factor v) (reaction_time v)
     (current_street v) (lane_index v) p (route_streets v) (route_index v)
     (streets_map v) (intersections_map v) (speed v) (max_accel v)
     (max_decel v) (base_speed_limit v) (done v).

Definition set_route_index (i : Z) (v : t) : t :=
  mk (vehicle_id v) (profile v) (speed_factor v) (reaction_time v)
     (current_street v) (lane_index v) (position_s v) (route_streets v) i
     (streets_map v) (intersections_map v) (speed v) (max_accel v)
     (max_decel v) (base_speed_limit v) (done v).

Definition set_done (b : bool) (v : t) : t :=
  mk (vehicle_id v) (profile v) (speed_factor v) (reaction_time v)
     (current_street v) (lane_index v) (position_s v) (route_streets v)
     (route_index v) (streets_map v) (intersections_map v) (speed v)
     (max_accel v) (max_decel v) (base_speed_limit v) b.

Definition set_current_street (st : Street.t) (v : t) : t :=
  mk (vehicle_id v) (profile v) (speed_factor v) (reaction_time v)
     st (lane_index v) (position_s v) (route_streets v) (route_index v)
     (streets_map v) (intersections_map v) (speed v) (max_accel v)
     (max_decel v) (base_speed_limit v) (done v).

Definition set_base_speed_limit (b : R) (v : t) : t :=
  mk (vehicle_id v) (profile v) (speed_factor v) (reaction_time v)
     (current_street v) (lane_index v) (position_s v) (route_streets v)
     (route_index v) (streets_map v) (intersections_map v) (speed v)
     (max_accel v) (max_decel v) b (done v).

(** What a call leaves behind: the object, and the exception if one was
    raised on the way. *)
Inductive outcome : Type :=
| Returned (v : t)
| Raised (e : exn) (v : t).

Definition state_of (o : outcome) : t :=
  match o with Returned v | Raised _ v => v end.

(** [Vehicle.__init__]. *)
Definition __init__ (vehicle_id : Z) (profile : string)
    (current_street : Street.t) (lane_index : Z) (route_streets : list Z)
    (streets_map : gmap Z Street.t)
    (intersections_map : gmap string Intersection.t) : exn + t :=
  match profile_lookup VEHICLE_PROFILES profile with
  | inl e => inl e
  | inr (sf, rt) =>
      inr (mk vehicle_id profile sf rt current_street lane_index 0.0
              route_streets 0 streets_map intersections_map
              0.0 2.0 4.0
              (Street.speed_limit current_street * sf) false)
  end.

(** [current_street_id]: the attribute always holds a street here, so the
    [-1] of the source is never returned. *)
Definition current_street_id (v : t) : Z := Street.id (current_street v).

(** Lines 162-180 of [_next_turn_direction]: the headings of the last edge
    of [cur] and of the first edge of [next], their difference in
    degrees, and its class. The subtractions, [atan2] and [degrees] are
    exact here and rounded to binary64 in the source: statements about
    which branch a given difference takes carry over, statements that two
    differently computed differences are equal do not. *)
Definition normalize_diff (diff : R) : R :=
  if Rgtb diff 180 then diff - 360
  else if Rltb diff (-180) then diff + 360
  else diff.

Definition classify_diff (diff : R) : turn :=
  if Rgtb diff 30 then Right
  else if Rltb diff (-30) then Left
  else Through.

Definition heading_diff (c1 c2 n1 n0 : R * R) : R :=
  let v1 := (fst c1 - fst c2, snd c1 - snd c2) in
  let v2 := (fst n1 - fst n0, snd n1 - snd n0) in
  let a1 := atan2 (snd v1) (fst v1) in
  let a2 := atan2 (snd v2) (fst v2) in
  degrees (a2 - a1).

Definition turn_between (cur next : Street.t) : exn + turn :=
  let ccoords := Street.coords cur in
  c1 ← py_getitem ccoords (-1);
  c2 ← py_getitem ccoords (-2);
  let ncoords := Street.coords next in
  n1 ← py_getitem ncoords 1;
  n0 ← py_getitem ncoords 0;
  inr (classify_diff (normalize_diff (heading_diff c1 c2 n1 n0))).

(** [_next_turn_direction]: [None] of the source is [inr None]. *)
Definition _next_turn_direction (self : t) : exn + option turn :=
  if (route_index self >=? Z.of_nat (List.length (route_streets self)) - 1)%Z
  then inr None
  else
    next_st_id ← py_getitem (route_streets self) (route_index self + 1);
    next_st ← py_dict_get (streets_map self) next_st_id;
    d ← turn_between (current_street self) next_st;
    inr (Some d).

Definition py_in (x : turn) (l : list turn) : bool := existsb (turn_eqb x) l.

(** [_lane_allows_turn]. *)
Definition _lane_allows_turn (st : Street.t) (ln : Z) (turn : turn)
  : exn + bool :=
  if ((ln <? 0) || (ln >=? Street.num_lanes st))%Z then inr false
  else
    directions ← py_getitem (Street.lane_dirs st) ln;
    inr (if turn_eqb turn Through
         then py_in turn directions || py_in Through directions
         else py_in turn directions).

(** *** The steps of [update] *)

(** Lines 68-73: the acceleration wanted, given the leader. *)
Definition leader_accel (self : t) (leader : option t) : R :=
  let desired_accel := max_accel self in
  match leader with
  | Some l =>
      if (current_street_id l =? current_street_id self)%Z then
        if (lane_index l =? lane_index self)%Z then
          let gap := position_s l - position_s self - 5.0 in
          if Rltb gap (speed self * reaction_time self)
          then - max_decel self
          else desired_accel
        else desired_accel
      else desired_accel
  | None => desired_accel
  end.

(** Lines 80-93: the lane change that prepares the next turn. *)
Definition lane_change (self : t) (turn_dir : option turn) : exn + t :=
  let dist_to_end := Street.length (current_street self) - position_s self in
  match turn_dir with
  | Some td =>
      if Rltb dist_to_end 50.0 then
        allowed ← _lane_allows_turn (current_street self) (lane_index self) td;
        if negb allowed then
          match td with
          | Left =>
              if (lane_index self <? Street.num_lanes (current_street self) - 1)%Z
              then inr (set_lane_index (lane_index self + 1) self)
              else inr self
          | Right =>
              if (lane_index self >? 0)%Z
              then inr (set_lane_index (lane_index self - 1) self)
              else inr self
          | Through => inr self
          end
        else inr self
      else inr self
  | None => inr self
  end.

(** Lines 96-101: the signal at the end of the street. *)
Definition signal_accel (self : t) (desired_accel : R) : R :=
  let dist_to_end := Street.length (current_street self) - position_s self in
  if Rltb dist_to_end 20.0 then
    match intersections_map self !! Street.end_node (current_street self) with
    | Some inter =>
        if negb (Intersection.can_vehicle_enter inter
                   (Street.id (current_street self)) (lane_index self))
        then - max_decel self
        else desired_accel
    | None => desired_accel
    end
  else desired_accel.

(** Lines 104-105. *)
Definition final_limit (self : t) : R :=
  let street_limit := Street.speed_limit (current_street self) in
  py_min (street_limit * speed_factor self) (base_speed_limit self).

(** Lines 108-109. *)
Definition new_speed (dt : R) (self : t) (desired_accel : R) : R :=
  let new_speed := speed self + desired_accel * dt in
  py_max 0.0 (py_min new_speed (final_limit self)).

(** Line 112. *)
Definition new_pos (dt : R) (self : t) (new_speed : R) : R :=
  position_s self + new_speed * dt.

(** Lines 114-146: the vehicle has reached the end of its street. *)
Definition leave_street (self : t) : outcome :=
  let new_pos := Street.length (current_street self) in
  let new_speed := 0.0 in
  let end_n := Street.end_node (current_street self) in
  match intersections_map self !! end_n with
  | Some inter =>
      if negb (Intersection.can_vehicle_enter inter
                 (Street.id (current_street self)) (lane_index self))
      then Returned (set_position_s new_pos (set_speed 0.0 self))
      else
        let self := set_route_index (route_index self + 1) self in
        if (route_index self >=? Z.of_nat (List.length (route_streets self)))%Z
        then Returned (set_done true self)
        else
          match py_getitem (route_streets self) (route_index self) with
          | inl e => Raised e self
          | inr next_st_id =>
              match py_dict_get (streets_map self) next_st_id with
              | inl e => Raised e self
              | inr next_st =>
                  let ln := Z.min (lane_index self) (Street.num_lanes next_st - 1) in
                  Returned
                    (set_base_speed_limit
                       (Street.speed_limit next_st * speed_factor self)
                       (set_speed 0.0
                          (set_position_s 0.0
                             (set_lane_index ln
                                (set_current_street next_st self)))))
              end
          end
  | None => Returned (set_done true self)
  end.

(** [update]. *)
Definition update (dt : R) (leader : option t) (self : t) : outcome :=
  if done self then Returned self
  else
    let desired_accel := leader_accel self leader in
    match _next_turn_direction self with
    | inl e => Raised e self
    | inr turn_dir =>
        match lane_change self turn_dir with
        | inl e => Raised e self
        | inr self =>
            let desired_accel := signal_accel self desired_accel in
            let new_speed := new_speed dt self desired_accel in
            let new_pos := new_pos dt self new_speed in
            if Rgeb new_pos (Street.length (current_street self))
            then leave_street self
            else Returned (set_position_s new_pos (set_speed new_speed self))
        end
    end.

End Vehicle.

(** ** Simulator *)

Module Simulator.

Section Placement.

(** The streets of the city layout and Python's [random] module lie
    outside the sources at hand. [layout] is the state of all streets,
    [n_streets] is [len(streets)], and [create_vehicle i count] is
    [streets[i].create_vehicle(count)]: the street's own answer, with the
    layout it leaves behind. [rng] is the state of the generator. *)
Variable layout : Type.
Variable n_streets : nat.
Variable create_vehicle : nat -> Z -> layout -> bool * layout.

Variable rng : Type.
Variable seed_rng : Z -> rng.
Variable choice : nat -> rng -> nat * rng.
Variable randint : Z -> Z -> rng -> Z * rng.

(** The simulator: its attributes, the generator, and a log of the
    batches the streets accepted (the log is not in the source: it
    records what the loop placed). *)
Record t : Type := mk {
  vehicle_count : Z;
  seed : Z;
  city_layout : layout;
  random_state : rng;
  accepted : list Z
}.

(** How a run of the loop ends: it left the loop, it raised, or it was
    still in the loop when the iterations allowed ran out. *)
Inductive result : Type :=
| Finished (s : t)
| Raised (e : exn) (s : t)
| Running (s : t).

Definition state_of (r : result) : t :=
  match r with Finished s | Raised _ s | Running s => s end.

Definition placed (s : t) : Z := fold_right Z.add 0%Z (accepted s).

(** The [while] loop of [_create_vehicles], for at most [fuel]
    iterations. [random.choice] raises [IndexError] on an empty list. *)
Fixpoint place (fuel : nat) (s : t) : result :=
  if (vehicle_count s >? 0)%Z then
    match fuel with
    | O => Running s
    | S fuel' =>
        if Nat.eqb n_streets 0 then Raised IndexError s
        else
          let '(street, g1) := choice n_streets (random_state s) in
          let '(count, g2) := randint 1 (vehicle_count s) g1 in
          let '(ok, c') := create_vehicle street count (city_layout s) in
          if ok
          then place fuel' (mk (vehicle_count s - count) (seed s) c' g2
                               (accepted s ++ [count]))
          else place fuel' (mk (vehicle_count s) (seed s) c' g2 (accepted s))
    end
  else Finished s.

(** [_create_vehicles]. *)
Definition _create_vehicles (fuel : nat) (s : t) : result :=
  place fuel (mk (vehicle_count s) (seed s) (city_layout s)
                 (seed_rng (seed s)) (accepted s)).

(** The loop leaves the [while] within [fuel] iterations, or raises. *)
Definition stops_within (fuel : nat) (s : t) : Prop :=
  match _create_vehicles fuel s with
  | Running _ => False
  | _ => True
  end.

End Placement.

Arguments mk {layout rng}.
Arguments vehicle_count {layout rng}.
Arguments seed {layout rng}.
Arguments city_layout {layout rng}.
Arguments random_state {layout rng}.
Arguments accepted {layout rng}.
Arguments Finished {layout rng}.
Arguments Raised {layout rng}.
Arguments Running {layout rng}.
Arguments state_of {layout rng}.
Arguments placed {layout rng}.
Arguments place {layout} n_streets create_vehicle {rng}.
Arguments _create_vehicles {layout} n_streets create_vehicle {rng}.
Arguments stops_within {layout} n_streets create_vehicle {rng}.

End Simulator.

(** ** Vocabulary of the statements *)

(** The first half of [update]: the turn ahead is classified and the lane
    change made. The result is the vehicle as it enters the signal check. *)
Definition prepared (v : Vehicle.t) : exn + Vehicle.t :=
  turn_dir ← Vehicle._next_turn_direction v;
  Vehicle.lane_change v turn_dir.

(** The speed and the position that [update] computes for the tick, [v1]
    being the vehicle after the lane change. *)
Definition tick_speed (dt : R) (leader : option Vehicle.t) (v v1 : Vehicle.t) : R :=
  Vehicle.new_speed dt v1 (Vehicle.signal_accel v1 (Vehicle.leader_accel v leader)).

Definition tick_pos (dt : R) (leader : option Vehicle.t) (v v1 : Vehicle.t) : R :=
  Vehicle.new_pos dt v1 (tick_speed dt leader v v1).

(** The answer of the intersection at the end of the current street. *)
Definition admission (v : Vehicle.t) : option bool :=
  match Vehicle.intersections_map v !! Street.end_node (Vehicle.current_street v) with
  | Some inter =>
      Some (Intersection.can_vehicle_enter inter
              (Street.id (Vehicle.current_street v)) (Vehicle.lane_index v))
  | None => None
  end.

Definition within_street (v : Vehicle.t) : Prop :=
  0 <= Vehicle.position_s v <= Street.length (Vehicle.current_street v)
  /\ 0 <= Vehicle.speed v.

(** A street as the data model wants it: a polyline of at least two points
    and a list of permitted turns for every lane. *)
Definition street_ok (st : Street.t) : Prop :=
  (2 <= List.length (Street.coords st))%nat
  /\ (Street.num_lanes st <= Z.of_nat (List.length (Street.lane_dirs st)))%Z.

(** A vehicle whose route cursor is not negative and whose route names
    streets of the network only. *)
Definition route_ok (v : Vehicle.t) : Prop :=
  (0 <= Vehicle.route_index v)%Z
  /\ street_ok (Vehicle.current_street v)
  /\ (forall id, In id (Vehicle.route_streets v) ->
        exists st, Vehicle.streets_map v !! id = Some st /\ street_ok st).

(** The lane index names a lane of the street the vehicle is on. *)
Definition lane_in_range (v : Vehicle.t) : Prop :=
  (0 <= Vehicle.lane_index v < Street.num_lanes (Vehicle.current_street v))%Z.

(** The speed is within the street's limit, scaled by the profile. *)
Definition speed_capped (v : Vehicle.t) : Prop :=
  Vehicle.speed v
  <= Street.speed_limit (Vehicle.current_street v) * Vehicle.speed_factor v.

(** What [__init__] fixes for the life of the vehicle. *)
Definition same_setup (v v' : Vehicle.t) : Prop :=
  Vehicle.vehicle_id v' = Vehicle.vehicle_id v
  /\ Vehicle.profile v' = Vehicle.profile v
  /\ Vehicle.speed_factor v' = Vehicle.speed_factor v
  /\ Vehicle.reaction_time v' = Vehicle.reaction_time v
  /\ Vehicle.route_streets v' = Vehicle.route_streets v
  /\ Vehicle.streets_map v' = Vehicle.streets_map v
  /\ Vehicle.intersections_map v' = Vehicle.intersections_map v
  /\ Vehicle.max_accel v' = Vehicle.max_accel v
  /\ Vehicle.max_decel v' = Vehicle.max_decel v.

(** A network for driving: lengths and speed limits are not negative and
    every street has a lane. *)
Definition street_drivable (st : Street.t) : Prop :=
  0 <= Street.length st
  /\ 0 <= Street.speed_limit st
  /\ (1 <= Street.num_lanes st)%Z.

Definition network_drivable (streets : gmap Z Street.t) : Prop :=
  forall k st, streets !! k = Some st -> street_drivable st.

(** The cached limit agrees with the street the vehicle is on. *)
Definition limit_cached (v : Vehicle.t) : Prop :=
  Vehicle.base_speed_limit v
  = Street.speed_limit (Vehicle.current_street v) * Vehicle.speed_factor v.

(** All that a vehicle in traffic keeps true of itself. *)
Definition roadworthy (v : Vehicle.t) : Prop :=
  within_street v /\ lane_in_range v /\ limit_cached v /\ speed_capped v
  /\ 0 <= Vehicle.speed_factor v
  /\ street_drivable (Vehicle.current_street v)
  /\ network_drivable (Vehicle.streets_map v).

(** A sequence of calls of [update], each with its own [dt] and leader. *)
Definition run (calls : list (R * option Vehicle.t)) (v : Vehicle.t) : Vehicle.t :=
  fold_left (fun acc call => Vehicle.state_of (Vehicle.update (fst call) (snd call) acc))
            calls v.

(** The normalisation as the specification words it: the representative of
    the difference in the half-open interval (-180, 180]. *)
Definition normalize_half_open (diff : R) : R :=
  if Rgtb diff 180 then diff - 360
  else if Rgeb (-180) diff then diff + 360
  else diff.

(** Polylines moved by a vector, and stretched by a factor. *)
Definition with_coords (cs : list (R * R)) (st : Street.t) : Street.t :=
  Street.mk (Street.id st) (Street.length st) (Street.num_lanes st)
            (Street.speed_limit st) cs (Street.lane_dirs st) (Street.end_node st).

Definition translate (dx dy : R) (st : Street.t) : Street.t :=
  with_coords (List.map (fun p => (fst p + dx, snd p + dy)) (Street.coords st)) st.

Definition scale (k : R) (st : Street.t) : Street.t :=
  with_coords (List.map (fun p => (k * fst p, k * snd p)) (Street.coords st)) st.

(** ** A small network for the examples

    [main_street] runs east and has two lanes, the second one for the left
    turn into [side_street]; [ahead_street] continues it with a single lane;
    [back_street] runs west, back to the start of [main_street]. *)

Definition main_street : Street.t :=
  Street.mk 1 100 2 10 [(0, 0); (100, 0)] [[Through]; [Left; Through]] "n1".
Definition side_street : Street.t :=
  Street.mk 2 50 2 10 [(100, 0); (100, -50)] [[Through]; [Through]] "n2".
Definition ahead_street : Street.t :=
  Street.mk 3 50 1 10 [(100, 0); (150, 0)] [[Through]] "n3".
Definition back_street : Street.t :=
  Street.mk 4 100 1 10 [(100, 0); (0, 0)] [[Through]] "n0".

Definition network : gmap Z Street.t :=
  {[ 1%Z := main_street; 2%Z := side_street;
     3%Z := ahead_street; 4%Z := back_street ]}.

Definition green : Intersection.t := Intersection.mk (fun _ _ => true).
Definition red : Intersection.t := Intersection.mk (fun _ _ => false).

Definition green_lights : gmap string Intersection.t :=
  {[ "n0"%string := green; "n1"%string := green ]}.
Definition red_lights : gmap string Intersection.t :=
  {[ "n0"%string := red; "n1"%string := red ]}.

(** A "normal" vehicle on [main_street]. *)
Definition car (lane : Z) (pos spd : R) (route : list Z)
    (lights : gmap string Intersection.t) : Vehicle.t :=
  Vehicle.mk 7 "normal" 1 1 main_street lane pos route 0 network lights
             spd 2 4 10 false.

(** Five units before the end of [main_street], in the through lane, about
    to turn left, facing a red and a green light. *)
Definition car_left_red : Vehicle.t := car 0 95 10 [1%Z; 2%Z] red_lights.
Definition car_left_green : Vehicle.t := car 0 95 10 [1%Z; 2%Z] green_lights.

(** In the second lane, going straight on into the single lane of
    [ahead_street]. *)
Definition car_through : Vehicle.t := car 1 95 10 [1%Z; 3%Z] green_lights.

(** One tick at the speed limit away from the end of the last street of its
    route. *)
Definition car_boundary : Vehicle.t := car 0 90 10 [1%Z] green_lights.

(** In the middle of the street, with and without a vehicle close ahead. *)
Definition car_cruising : Vehicle.t := car 0 10 5 [1%Z; 2%Z] green_lights.
Definition car_following : Vehicle.t := car 0 50 10 [1%Z; 2%Z] green_lights.
Definition car_ahead : Vehicle.t := car 0 56 10 [1%Z; 2%Z] green_lights.

(** As [__init__] makes it. *)
Definition car_new : Vehicle.t :=
  Vehicle.mk 7 "normal" 1.00 1.0 main_street 0 0.0 [1%Z; 2%Z] 0 network
             green_lights 0.0 2.0 4.0 (10 * 1.00) false.

(** Standing at the red light at the end of [main_street], in the lane for
    the left turn. *)
Definition car_waiting : Vehicle.t := car 1 100 0 [1%Z; 2%Z] red_lights.

(** Its route names a street that the network does not have. *)
Definition car_lost : Vehicle.t := car 0 10 5 [1%Z; 9%Z] green_lights.

(** At the end of its life. *)
Definition car_done : Vehicle.t :=
  Vehicle.mk 7 "normal" 1 1 main_street 0 90 [1%Z] 1 network green_lights
             10 2 4 10 true.

(** On [ahead_street], whose end is an exit of the network. *)
Definition car_exit : Vehicle.t :=
  Vehicle.mk 9 "normal" 1 1 ahead_street 0 45 [3%Z] 0 network green_lights
             10 2 4 10 false.

(** On [back_street], about to turn round into [main_street]. *)
Definition car_uturn : Vehicle.t :=
  Vehicle.mk 8 "normal" 1 1 back_street 0 0 [4%Z; 1%Z] 0 network green_lights
             0 2 4 10 false.

(** Streets that reject every batch, streets that accept every batch, and a
    generator that always draws the first street and the largest batch. *)
Definition rejecting (street : nat) (count : Z) (c : unit) : bool * unit := (false, c).
Definition accepting (street : nat) (count : Z) (c : unit) : bool * unit := (true, c).
Definition first_choice (n : nat) (g : unit) : nat * unit := (O, g).
Definition largest (a b : Z) (g : unit) : Z * unit := (b, g).
Definition ten_requested : Simulator.t unit unit := Simulator.mk 10 42 tt tt [].
Definition one_requested : Simulator.t unit unit := Simulator.mk 1 42 tt tt [].

(** ** Comparisons and Python's [min] and [max] *)

Lemma Rltb_true (x y : R) : x < y -> Rltb x y = true.
Proof. intros H. unfold Rltb. destruct (Rlt_dec x y); [reflexivity | contradiction]. Qed.

Lemma Rltb_false (x y : R) : y <= x -> Rltb x y = false.
Proof. intros H. unfold Rltb. destruct (Rlt_dec x y); [lra | reflexivity]. Qed.

Lemma Rltb_spec (x y : R) : Rltb x y = true <-> x < y.
Proof.
  unfold Rltb. destruct (Rlt_dec x y); split; intros; auto; discriminate.
Qed.

Lemma Rgeb_true (x y : R) : x >= y -> Rgeb x y = true.
Proof. intros H. unfold Rgeb. destruct (Rge_dec x y); [reflexivity | contradiction]. Qed.

Lemma Rgeb_false (x y : R) : x < y -> Rgeb x y = false.
Proof. intros H. unfold Rgeb. destruct (Rge_dec x y); [lra | reflexivity]. Qed.

Lemma Rgeb_spec (x y : R) : Rgeb x y = true <-> x >= y.
Proof.
  unfold Rgeb. destruct (Rge_dec x y); split; intros; auto; discriminate.
Qed.

(** Case analysis on every real comparison in sight. *)
Ltac rcases :=
  unfold py_max, py_min, Rgtb, Rgeb, Rltb in *;
  repeat match goal with
         | |- context [Rlt_dec ?a ?b] => destruct (Rlt_dec a b)
         | |- context [Rge_dec ?a ?b] => destruct (Rge_dec a b)
         | H : context [Rlt_dec ?a ?b] |- _ => destruct (Rlt_dec a b)
         | H : context [Rge_dec ?a ?b] |- _ => destruct (Rge_dec a b)
         end.

Lemma py_max_lower (a b : R) : a <= py_max a b.
Proof. rcases; lra. Qed.

Lemma py_max_cases (a b : R) : py_max a b = a \/ py_max a b = b.
Proof. rcases; auto. Qed.

Lemma py_min_le_l (a b : R) : py_min a b <= a.
Proof. rcases; lra. Qed.

Lemma py_min_le_r (a b : R) : py_min a b <= b.
Proof. rcases; lra. Qed.

Lemma py_min_same (a : R) : py_min a a = a.
Proof. rcases; lra. Qed.

(** ** The steps of [update], one by one *)

(** The lane change touches the lane index and nothing else. *)
Lemma lane_change_frame (v v1 : Vehicle.t) (td : option turn) :
  Vehicle.lane_change v td = inr v1 ->
  v1 = Vehicle.set_lane_index (Vehicle.lane_index v1) v.
Proof.
  unfold Vehicle.lane_change. intros H.
  assert (Hid : v = Vehicle.set_lane_index (Vehicle.lane_index v) v)
    by (destruct v; reflexivity).
  destruct td as [td|]; [|injection H as <-; exact Hid].
  destruct (Rltb _ _); [|injection H as <-; exact Hid].
  destruct (Vehicle._lane_allows_turn _ _ td) as [e|allowed]; simpl in H;
    [discriminate|].
  destruct allowed; simpl in H; [injection H as <-; exact Hid|].
  destruct td; repeat (destruct (_ <? _)%Z || destruct (_ >? _)%Z);
    injection H as <-; auto.
Qed.

Lemma new_speed_nonneg (dt : R) (v : Vehicle.t) (a : R) :
  0 <= Vehicle.new_speed dt v a.
Proof.
  unfold Vehicle.new_speed.
  replace 0.0 with 0 by lra. apply py_max_lower.
Qed.

Lemma new_speed_le_limit (dt : R) (v : Vehicle.t) (a : R) :
  0 <= Vehicle.final_limit v ->
  Vehicle.new_speed dt v a <= Vehicle.final_limit v.
Proof.
  unfold Vehicle.new_speed. intros H.
  generalize (Vehicle.final_limit v) H. intros lim Hlim. rcases; lra.
Qed.

(** Braking never raises the speed of a vehicle that is not reversing. *)
Lemma new_speed_braking (dt : R) (v : Vehicle.t) :
  0 < dt -> 0 <= Vehicle.max_decel v -> 0 <= Vehicle.speed v ->
  Vehicle.new_speed dt v (- Vehicle.max_decel v) <= Vehicle.speed v.
Proof.
  unfold Vehicle.new_speed. intros Hdt Hdec Hs.
  assert (0 <= Vehicle.max_decel v * dt) by (apply Rmult_le_pos; lra).
  generalize (Vehicle.final_limit v). intros lim. rcases; lra.
Qed.

(** ** Bounds on position and speed *)

Lemma leave_street_within (v : Vehicle.t) :
  (forall k st, Vehicle.streets_map v !! k = Some st -> 0 <= Street.length st) ->
  within_street v ->
  within_street (Vehicle.state_of (Vehicle.leave_street v)).
Proof.
  intros Hlen [[Hp0 Hp1] Hs]. unfold Vehicle.leave_street.
  destruct (Vehicle.intersections_map v !! _) as [inter|];
    [|simpl; repeat split; assumption].
  destruct (negb _).
  - simpl. unfold within_street; simpl. repeat split; lra.
  - cbv zeta. destruct (_ >=? _)%Z; [simpl; repeat split; assumption|].
    destruct (py_getitem _ _) as [e|next_st_id];
      [simpl; repeat split; assumption|].
    unfold py_dict_get. simpl Vehicle.streets_map.
    destruct (Vehicle.streets_map v !! next_st_id) as [next_st|] eqn:Hget;
      [|simpl; repeat split; assumption].
    simpl. unfold within_street; simpl.
    specialize (Hlen _ _ Hget). repeat split; lra.
Qed.

(** C1. For every vehicle whose state satisfies
    [0 <= position <= length of the current street] and [0 <= speed], every
    [dt > 0] and every leader, the state after [update dt leader] satisfies
    the same bounds, with the length of the street the vehicle is then on.
    Street lengths of the network are non-negative. The bounds also hold for
    the state left behind when [update] raises. *)
Theorem update_within_street (dt : R) (leader : option Vehicle.t) (v : Vehicle.t) :
  0 < dt ->
  (forall k st, Vehicle.streets_map v !! k = Some st -> 0 <= Street.length st) ->
  within_street v ->
  within_street (Vehicle.state_of (Vehicle.update dt leader v)).
Proof.
  intros Hdt Hlen Hv. unfold Vehicle.update.
  destruct (Vehicle.done v); [exact Hv|].
  destruct (Vehicle._next_turn_direction v) as [e|td]; [exact Hv|].
  destruct (Vehicle.lane_change v td) as [e|v1] eqn:Hlc; [exact Hv|].
  apply lane_change_frame in Hlc.
  assert (Hv1 : within_street v1) by (rewrite Hlc; exact Hv).
  assert (Hlen1 : forall k st,
             Vehicle.streets_map v1 !! k = Some st -> 0 <= Street.length st)
    by (rewrite Hlc; exact Hlen).
  cbv zeta.
  set (a := Vehicle.signal_accel v1 _).
  pose proof (new_speed_nonneg dt v1 a) as Hns.
  destruct (Rgeb _ _) eqn:Hend.
  - apply leave_street_within; assumption.
  - assert (Hlt : Vehicle.new_pos dt v1 (Vehicle.new_speed dt v1 a)
                  < Street.length (Vehicle.current_street v1)).
    { unfold Rgeb in Hend. destruct (Rge_dec _ _); [discriminate | lra]. }
    destruct Hv1 as [[Hp0 Hp1] Hs]. unfold within_street; simpl.
    unfold Vehicle.new_pos in *.
    assert (0 <= Vehicle.new_speed dt v1 a * dt) by (apply Rmult_le_pos; lra).
    repeat split; lra.
Qed.

(** ** Headings *)

Lemma atan2_east (x : R) : 0 < x -> atan2 0 x = 0.
Proof.
  intros Hx. unfold atan2. rewrite Rltb_true by lra.
  replace (0 / x) with 0 by (field; lra). apply atan_0.
Qed.

Lemma atan2_west (x : R) : x < 0 -> atan2 0 x = PI.
Proof.
  intros Hx. unfold atan2. rewrite (Rltb_false 0 x) by lra.
  rewrite (Rltb_true x 0) by lra. rewrite (Rltb_false 0 0) by lra.
  replace (0 / x) with 0 by (field; lra). rewrite atan_0. lra.
Qed.

Lemma atan2_south (y : R) : y < 0 -> atan2 y 0 = - (PI / 2).
Proof.
  intros Hy. unfold atan2. rewrite !(Rltb_false 0 0) by lra.
  rewrite (Rltb_false 0 y) by lra. rewrite (Rltb_true y 0) by lra. reflexivity.
Qed.

(** [atan2] takes its values in (-PI, PI]. *)
Lemma atan2_bound (y x : R) : - PI < atan2 y x <= PI.
Proof.
  pose proof PI_RGT_0 as Hpi. unfold atan2.
  pose proof (atan_bound (y / x)) as [Hlo Hhi].
  destruct (Rltb 0 x) eqn:Hx; [lra|].
  destruct (Rltb x 0) eqn:Hx'.
  - apply Rltb_spec in Hx'.
    destruct (Rltb y 0) eqn:Hy.
    + apply Rltb_spec in Hy.
      assert (0 < y / x).
      { replace (y / x) with ((- y) * / (- x)) by (field; lra).
        apply Rmult_lt_0_compat; [lra | apply Rinv_0_lt_compat; lra]. }
      assert (atan 0 < atan (y / x)) by (apply atan_increasing; assumption).
      rewrite atan_0 in *. lra.
    + assert (Hy' : 0 <= y).
      { unfold Rltb in Hy. destruct (Rlt_dec y 0); [discriminate | lra]. }
      assert (y / x <= 0).
      { replace (y / x) with (- (y * / (- x))) by (field; lra).
        assert (0 <= y * / (- x)); [|lra].
        apply Rmult_le_pos; [lra | left; apply Rinv_0_lt_compat; lra]. }
      assert (atan (y / x) <= atan 0).
      { destruct (Req_dec (y / x) 0) as [->|]; [lra|].
        left. apply atan_increasing. lra. }
      rewrite atan_0 in *. lra.
  - destruct (Rltb 0 y); [lra|]. destruct (Rltb y 0); lra.
Qed.

Lemma degrees_bound (a : R) :
  - (2 * PI) < a < 2 * PI -> -360 < degrees a < 360.
Proof.
  intros [Hlo Hhi]. pose proof PI_RGT_0 as Hpi. unfold degrees.
  assert (Hk : 0 < 180 / PI) by (apply Rdiv_lt_0_compat; lra).
  assert (H360 : 2 * PI * (180 / PI) = 360) by (field; lra).
  assert (Hup : a * (180 / PI) < 2 * PI * (180 / PI))
    by (apply Rmult_lt_compat_r; assumption).
  assert (Hdn : - (2 * PI) * (180 / PI) < a * (180 / PI))
    by (apply Rmult_lt_compat_r; assumption).
  lra.
Qed.

Lemma heading_diff_bound (c1 c2 n1 n0 : R * R) :
  -360 < Vehicle.heading_diff c1 c2 n1 n0 < 360.
Proof.
  unfold Vehicle.heading_diff. cbv zeta. apply degrees_bound.
  match goal with
  | |- _ < atan2 ?y2 ?x2 - atan2 ?y1 ?x1 < _ =>
      pose proof (atan2_bound y2 x2); pose proof (atan2_bound y1 x1)
  end.
  lra.
Qed.

(** The difference of headings, once normalised as the source does it, lies
    in the closed interval from -180 to 180. *)
Lemma normalize_diff_range (d : R) :
  -360 < d < 360 -> -180 <= Vehicle.normalize_diff d <= 180.
Proof. intros Hd. unfold Vehicle.normalize_diff. rcases; lra. Qed.

(** The two normalisations differ at -180 and nowhere else. *)
Lemma normalize_diff_half_open (d : R) :
  d <> -180 -> Vehicle.normalize_diff d = normalize_half_open d.
Proof.
  intros Hd. unfold Vehicle.normalize_diff, normalize_half_open. rcases; lra.
Qed.

(** The headings in the example network. *)
Lemma main_to_side :
  Vehicle.heading_diff (100, 0) (0, 0) (100, -50) (100, 0) = -90.
Proof.
  unfold Vehicle.heading_diff. simpl.
  replace (100 - 0) with 100 by lra. replace (0 - 0) with 0 by lra.
  replace (100 - 100) with 0 by lra. replace (-50 - 0) with (-50) by lra.
  rewrite atan2_east by lra. rewrite atan2_south by lra.
  unfold degrees. field. apply PI_neq0.
Qed.

Lemma main_to_ahead :
  Vehicle.heading_diff (100, 0) (0, 0) (150, 0) (100, 0) = 0.
Proof.
  unfold Vehicle.heading_diff. simpl.
  replace (100 - 0) with 100 by lra. replace (0 - 0) with 0 by lra.
  replace (150 - 100) with 50 by lra.
  rewrite !atan2_east by lra. unfold degrees. field. apply PI_neq0.
Qed.

Lemma back_to_main :
  Vehicle.heading_diff (0, 0) (100, 0) (100, 0) (0, 0) = -180.
Proof.
  unfold Vehicle.heading_diff. simpl.
  replace (100 - 0) with 100 by lra. replace (0 - 0) with 0 by lra.
  replace (0 - 100) with (-100) by lra.
  rewrite atan2_east by lra. rewrite atan2_west by lra.
  unfold degrees. field. apply PI_neq0.
Qed.

(** ** Subscripts *)

Lemma py_getitem_nonneg {A : Type} (l : list A) (i : Z) (x : A) :
  (0 <= i)%Z -> nth_error l (Z.to_nat i) = Some x -> py_getitem l i = inr x.
Proof.
  intros Hi Hnth. unfold py_getitem.
  assert (Hlt : (Z.to_nat i < List.length l)%nat)
    by (apply nth_error_Some; rewrite Hnth; discriminate).
  destruct (Z.ltb_spec i 0); [lia|].
  destruct (Z.ltb_spec i 0); [lia|].
  destruct (Z.leb_spec (Z.of_nat (List.length l)) i); [lia|].
  simpl. rewrite Hnth. reflexivity.
Qed.

Lemma py_getitem_last {A : Type} (pre : list A) (c2 c1 : A) :
  py_getitem (pre ++ [c2; c1]) (-1) = inr c1.
Proof.
  unfold py_getitem. rewrite length_app. simpl List.length.
  change (-1 <? 0)%Z with true. cbv iota.
  destruct (Z.ltb_spec (-1 + Z.of_nat (List.length pre + 2)) 0); [lia|].
  destruct (Z.leb_spec (Z.of_nat (List.length pre + 2))
              (-1 + Z.of_nat (List.length pre + 2))); [lia|].
  simpl.
  replace (Z.to_nat (-1 + Z.of_nat (List.length pre + 2)))
    with (List.length pre + 1)%nat by lia.
  rewrite nth_error_app2 by lia.
  replace (List.length pre + 1 - List.length pre)%nat with 1%nat by lia.
  reflexivity.
Qed.

Lemma py_getitem_last_but_one {A : Type} (pre : list A) (c2 c1 : A) :
  py_getitem (pre ++ [c2; c1]) (-2) = inr c2.
Proof.
  unfold py_getitem. rewrite length_app. simpl List.length.
  change (-2 <? 0)%Z with true. cbv iota.
  destruct (Z.ltb_spec (-2 + Z.of_nat (List.length pre + 2)) 0); [lia|].
  destruct (Z.leb_spec (Z.of_nat (List.length pre + 2))
              (-2 + Z.of_nat (List.length pre + 2))); [lia|].
  simpl.
  replace (Z.to_nat (-2 + Z.of_nat (List.length pre + 2)))
    with (List.length pre + 0)%nat by lia.
  rewrite nth_error_app2 by lia.
  replace (List.length pre + 0 - List.length pre)%nat with 0%nat by lia.
  reflexivity.
Qed.

(** A subscript commutes with [map]. *)
Lemma py_getitem_map {A B : Type} (f : A -> B) (l : list A) (i : Z) :
  py_getitem (List.map f l) i
  = match py_getitem l i with inl e => inl e | inr x => inr (f x) end.
Proof.
  unfold py_getitem. rewrite length_map.
  destruct (_ || _)%Z; [reflexivity|].
  rewrite nth_error_map. destruct (nth_error l _); reflexivity.
Qed.

(** ** The turn ahead *)

Lemma turn_between_eval (cur next : Street.t)
    (pre rest : list (R * R)) (c2 c1 n0 n1 : R * R) :
  Street.coords cur = pre ++ [c2; c1] ->
  Street.coords next = n0 :: n1 :: rest ->
  Vehicle.turn_between cur next
  = inr (Vehicle.classify_diff
           (Vehicle.normalize_diff (Vehicle.heading_diff c1 c2 n1 n0))).
Proof.
  intros Hc Hn. unfold Vehicle.turn_between. cbv zeta.
  rewrite Hc, Hn, py_getitem_last, py_getitem_last_but_one.
  rewrite (py_getitem_nonneg (n0 :: n1 :: rest) 1 n1) by (reflexivity || lia).
  rewrite (py_getitem_nonneg (n0 :: n1 :: rest) 0 n0) by (reflexivity || lia).
  reflexivity.
Qed.

Lemma next_turn_direction_none (v : Vehicle.t) :
  (Vehicle.route_index v
   >= Z.of_nat (List.length (Vehicle.route_streets v)) - 1)%Z ->
  Vehicle._next_turn_direction v = inr None.
Proof.
  intros H. unfold Vehicle._next_turn_direction.
  destruct (Z.geb_spec (Vehicle.route_index v)
              (Z.of_nat (List.length (Vehicle.route_streets v)) - 1));
    [reflexivity | lia].
Qed.

Lemma next_turn_direction_eval (v : Vehicle.t) (next_id : Z) (next_st : Street.t)
    (pre rest : list (R * R)) (c2 c1 n0 n1 : R * R) :
  (Vehicle.route_index v
   < Z.of_nat (List.length (Vehicle.route_streets v)) - 1)%Z ->
  py_getitem (Vehicle.route_streets v) (Vehicle.route_index v + 1) = inr next_id ->
  Vehicle.streets_map v !! next_id = Some next_st ->
  Street.coords (Vehicle.current_street v) = pre ++ [c2; c1] ->
  Street.coords next_st = n0 :: n1 :: rest ->
  Vehicle._next_turn_direction v
  = inr (Some (Vehicle.classify_diff
                 (Vehicle.normalize_diff (Vehicle.heading_diff c1 c2 n1 n0)))).
Proof.
  intros Hri Hid Hst Hc Hn. unfold Vehicle._next_turn_direction.
  destruct (Z.geb_spec (Vehicle.route_index v)
              (Z.of_nat (List.length (Vehicle.route_streets v)) - 1)); [lia|].
  rewrite Hid. simpl. unfold py_dict_get. rewrite Hst. simpl.
  rewrite (turn_between_eval _ _ pre rest c2 c1 n0 n1 Hc Hn). reflexivity.
Qed.

Lemma classify_left (d : R) : d < -30 -> Vehicle.classify_diff d = Left.
Proof.
  intros H. unfold Vehicle.classify_diff, Rgtb.
  rewrite Rltb_false by lra. rewrite Rltb_true by lra. reflexivity.
Qed.

Lemma classify_right (d : R) : 30 < d -> Vehicle.classify_diff d = Right.
Proof.
  intros H. unfold Vehicle.classify_diff, Rgtb.
  rewrite Rltb_true by lra. reflexivity.
Qed.

Lemma classify_through (d : R) :
  -30 <= d <= 30 -> Vehicle.classify_diff d = Through.
Proof.
  intros H. unfold Vehicle.classify_diff, Rgtb.
  rewrite !Rltb_false by lra. reflexivity.
Qed.

Lemma normalize_diff_id (d : R) :
  -180 <= d <= 180 -> Vehicle.normalize_diff d = d.
Proof.
  intros H. unfold Vehicle.normalize_diff, Rgtb.
  rewrite !Rltb_false by lra. reflexivity.
Qed.

(** The turns in the example network. *)
Lemma turn_main_side (lane : Z) (pos spd : R) (lights : gmap string Intersection.t) :
  Vehicle._next_turn_direction (car lane pos spd [1%Z; 2%Z] lights)
  = inr (Some Left).
Proof.
  rewrite (next_turn_direction_eval _ 2%Z side_street [] []
             (0, 0) (100, 0) (100, 0) (100, -50)); try reflexivity.
  rewrite main_to_side, normalize_diff_id by lra.
  rewrite classify_left by lra. reflexivity.
Qed.

Lemma turn_main_ahead (lane : Z) (pos spd : R) (lights : gmap string Intersection.t) :
  Vehicle._next_turn_direction (car lane pos spd [1%Z; 3%Z] lights)
  = inr (Some Through).
Proof.
  rewrite (next_turn_direction_eval _ 3%Z ahead_street [] []
             (0, 0) (100, 0) (100, 0) (150, 0)); try reflexivity.
  rewrite main_to_ahead, normalize_diff_id by lra.
  rewrite classify_through by lra. reflexivity.
Qed.

Lemma turn_back_main : Vehicle._next_turn_direction car_uturn = inr (Some Left).
Proof.
  rewrite (next_turn_direction_eval _ 1%Z main_street [] []
             (100, 0) (0, 0) (0, 0) (100, 0)); try reflexivity.
  rewrite back_to_main, normalize_diff_id by lra.
  rewrite classify_left by lra. reflexivity.
Qed.

(** ** The shape of [update] *)

Lemma update_steps (dt : R) (leader : option Vehicle.t) (v v1 : Vehicle.t) :
  Vehicle.done v = false ->
  prepared v = inr v1 ->
  Vehicle.update dt leader v
  = if Rgeb (tick_pos dt leader v v1) (Street.length (Vehicle.current_street v1))
    then Vehicle.leave_street v1
    else Vehicle.Returned
           (Vehicle.set_position_s (tick_pos dt leader v v1)
              (Vehicle.set_speed (tick_speed dt leader v v1) v1)).
Proof.
  intros Hdone Hprep. unfold Vehicle.update, prepared in *. rewrite Hdone.
  destruct (Vehicle._next_turn_direction v) as [e|td]; [discriminate|].
  simpl in Hprep. rewrite Hprep. reflexivity.
Qed.

Lemma update_raises (dt : R) (leader : option Vehicle.t) (v : Vehicle.t) (e : exn) :
  Vehicle.done v = false ->
  prepared v = inl e ->
  Vehicle.update dt leader v = Vehicle.Raised e v.
Proof.
  intros Hdone Hprep. unfold Vehicle.update, prepared in *. rewrite Hdone.
  destruct (Vehicle._next_turn_direction v) as [e'|td].
  - simpl in Hprep. congruence.
  - simpl in Hprep. rewrite Hprep. reflexivity.
Qed.

Lemma leave_street_denied (v : Vehicle.t) :
  admission v = Some false ->
  Vehicle.leave_street v
  = Vehicle.Returned
      (Vehicle.set_position_s (Street.length (Vehicle.current_street v))
         (Vehicle.set_speed 0.0 v)).
Proof.
  unfold admission, Vehicle.leave_street. intros H.
  destruct (Vehicle.intersections_map v !! _) as [inter|]; [|discriminate].
  injection H as ->. reflexivity.
Qed.

Lemma leave_street_exit (v : Vehicle.t) :
  admission v = None ->
  Vehicle.leave_street v = Vehicle.Returned (Vehicle.set_done true v).
Proof.
  unfold admission, Vehicle.leave_street. intros H.
  destruct (Vehicle.intersections_map v !! _) as [inter|]; [discriminate|].
  reflexivity.
Qed.

Lemma leave_street_route_end (v : Vehicle.t) :
  admission v = Some true ->
  (Vehicle.route_index v + 1
   >= Z.of_nat (List.length (Vehicle.route_streets v)))%Z ->
  Vehicle.leave_street v
  = Vehicle.Returned
      (Vehicle.set_done true
         (Vehicle.set_route_index (Vehicle.route_index v + 1) v)).
Proof.
  unfold admission, Vehicle.leave_street. intros H Hri.
  destruct (Vehicle.intersections_map v !! _) as [inter|]; [|discriminate].
  injection H as ->. simpl.
  destruct (Z.geb_spec (Vehicle.route_index v + 1)
              (Z.of_nat (List.length (Vehicle.route_streets v))));
    [reflexivity | lia].
Qed.

Lemma leave_street_next (v : Vehicle.t) (next_id : Z) (next_st : Street.t) :
  admission v = Some true ->
  (Vehicle.route_index v + 1
   < Z.of_nat (List.length (Vehicle.route_streets v)))%Z ->
  py_getitem (Vehicle.route_streets v) (Vehicle.route_index v + 1) = inr next_id ->
  Vehicle.streets_map v !! next_id = Some next_st ->
  Vehicle.leave_street v
  = Vehicle.Returned
      (Vehicle.set_base_speed_limit
         (Street.speed_limit next_st * Vehicle.speed_factor v)
         (Vehicle.set_speed 0.0
            (Vehicle.set_position_s 0.0
               (Vehicle.set_lane_index
                  (Z.min (Vehicle.lane_index v) (Street.num_lanes next_st - 1))
                  (Vehicle.set_current_street next_st
                     (Vehicle.set_route_index (Vehicle.route_index v + 1) v)))))).
Proof.
  unfold admission, Vehicle.leave_street. intros H Hri Hid Hst.
  destruct (Vehicle.intersections_map v !! _) as [inter|]; [|discriminate].
  injection H as ->. simpl.
  destruct (Z.geb_spec (Vehicle.route_index v + 1)
              (Z.of_nat (List.length (Vehicle.route_streets v)))); [lia|].
  rewrite Hid. unfold py_dict_get. simpl Vehicle.streets_map. rewrite Hst.
  reflexivity.
Qed.

(** ** Evaluating a tick in the example network *)

Ltac rdecide :=
  repeat match goal with
         | |- context [Rltb ?a ?b] =>
             first [ rewrite (Rltb_true a b) by lra
                   | rewrite (Rltb_false a b) by lra ]
         | |- context [Rgeb ?a ?b] =>
             first [ rewrite (Rgeb_true a b) by lra
                   | rewrite (Rgeb_false a b) by lra ]
         end.

Lemma red_n1 : red_lights !! "n1"%string = Some red.
Proof. reflexivity. Qed.

Lemma green_n1 : green_lights !! "n1"%string = Some green.
Proof. reflexivity. Qed.

Lemma green_n0 : green_lights !! "n0"%string = Some green.
Proof. reflexivity. Qed.

Ltac tick :=
  unfold tick_pos, tick_speed, Vehicle.new_pos, Vehicle.new_speed,
    Vehicle.signal_accel, Vehicle.leader_accel, Vehicle.final_limit, admission;
  simpl; rdecide; rewrite ?red_n1, ?green_n1, ?green_n0; simpl;
  unfold py_max, py_min, Rgtb; rdecide; try reflexivity; try lra.

(** Close to the end of [main_street], a car in the through lane that is
    about to turn left moves to the second lane. *)
Lemma prepared_left (pos spd : R) (lights : gmap string Intersection.t) :
  50 < pos ->
  prepared (car 0 pos spd [1%Z; 2%Z] lights)
  = inr (car 1 pos spd [1%Z; 2%Z] lights).
Proof.
  intros Hpos. unfold prepared. rewrite turn_main_side. simpl.
  unfold Vehicle.lane_change. simpl. rdecide. reflexivity.
Qed.

(** Far from the end it keeps its lane. *)
Lemma prepared_far (pos spd : R) (lights : gmap string Intersection.t) :
  pos <= 50 ->
  prepared (car 0 pos spd [1%Z; 2%Z] lights)
  = inr (car 0 pos spd [1%Z; 2%Z] lights).
Proof.
  intros Hpos. unfold prepared. rewrite turn_main_side. simpl.
  unfold Vehicle.lane_change. simpl. rdecide. reflexivity.
Qed.

(** Going straight on, the second lane will do. *)
Lemma prepared_through (pos spd : R) (lights : gmap string Intersection.t) :
  prepared (car 1 pos spd [1%Z; 3%Z] lights)
  = inr (car 1 pos spd [1%Z; 3%Z] lights).
Proof.
  unfold prepared. rewrite turn_main_ahead. simpl.
  unfold Vehicle.lane_change. simpl.
  destruct (Rltb (100 - pos) 50.0); reflexivity.
Qed.

Lemma prepared_last (lane : Z) (pos spd : R) (lights : gmap string Intersection.t) :
  prepared (car lane pos spd [1%Z] lights) = inr (car lane pos spd [1%Z] lights).
Proof. reflexivity. Qed.

Lemma tick_pos_left_red :
  tick_pos 1 None car_left_red (car 1 95 10 [1%Z; 2%Z] red_lights) = 95 + 6 * 1.
Proof. tick. Qed.

Lemma update_left_red :
  Vehicle.update 1 None car_left_red
  = Vehicle.Returned (car 1 100 0.0 [1%Z; 2%Z] red_lights).
Proof.
  rewrite (update_steps 1 None car_left_red (car 1 95 10 [1%Z; 2%Z] red_lights));
    [|reflexivity|apply prepared_left; lra].
  rewrite tick_pos_left_red. simpl. rdecide.
  rewrite leave_street_denied by tick. reflexivity.
Qed.

(** ** Admission denied at the end of the street *)

(** C2, as stated, fails. [car_left_red] is not terminal, its update reaches
    the end of the street, and the light is red; yet after the tick it
    stands at 100, not at 95, and in lane 1, not in lane 0. *)
Lemma denied_car_moves_up :
  Vehicle.done car_left_red = false
  /\ prepared car_left_red = inr (car 1 95 10 [1%Z; 2%Z] red_lights)
  /\ tick_pos 1 None car_left_red (car 1 95 10 [1%Z; 2%Z] red_lights)
     >= Street.length main_street
  /\ admission (car 1 95 10 [1%Z; 2%Z] red_lights) = Some false
  /\ Vehicle.position_s (Vehicle.state_of (Vehicle.update 1 None car_left_red)) = 100
  /\ Vehicle.position_s car_left_red = 95
  /\ Vehicle.lane_index (Vehicle.state_of (Vehicle.update 1 None car_left_red)) = 1%Z
  /\ Vehicle.lane_index car_left_red = 0%Z.
Proof.
  rewrite update_left_red, tick_pos_left_red.
  repeat split; try reflexivity.
  - apply prepared_left; lra.
  - simpl. lra.
Qed.

(** C2, amended. A vehicle that is not terminal, whose update reaches the
    end of its street and whose end intersection denies admission, is after
    the tick on the same street, in the lane it has after the lane change of
    this tick, at the end of the street, with speed 0. *)
Theorem denied_at_end_waits (dt : R) (leader : option Vehicle.t)
    (v v1 : Vehicle.t) :
  Vehicle.done v = false ->
  prepared v = inr v1 ->
  tick_pos dt leader v v1 >= Street.length (Vehicle.current_street v1) ->
  admission v1 = Some false ->
  exists v',
    Vehicle.update dt leader v = Vehicle.Returned v'
    /\ Vehicle.current_street v' = Vehicle.current_street v
    /\ Vehicle.lane_index v' = Vehicle.lane_index v1
    /\ Vehicle.position_s v' = Street.length (Vehicle.current_street v)
    /\ Vehicle.speed v' = 0
    /\ Vehicle.route_index v' = Vehicle.route_index v
    /\ Vehicle.done v' = false.
Proof.
  intros Hdone Hprep Hend Hdeny.
  rewrite (update_steps dt leader v v1 Hdone Hprep).
  rewrite Rgeb_true by exact Hend.
  rewrite (leave_street_denied v1 Hdeny).
  unfold prepared in Hprep.
  destruct (Vehicle._next_turn_direction v) as [e|td]; [discriminate|].
  simpl in Hprep. apply lane_change_frame in Hprep.
  eexists. split; [reflexivity|].
  rewrite Hprep. simpl. repeat split; try assumption; try reflexivity. lra.
Qed.

Lemma denied_at_end_waits_witness :
  exists v',
    Vehicle.update 1 None car_left_red = Vehicle.Returned v'
    /\ Vehicle.current_street v' = main_street
    /\ Vehicle.lane_index v' = 1%Z
    /\ Vehicle.position_s v' = 100
    /\ Vehicle.speed v' = 0
    /\ Vehicle.route_index v' = 0%Z
    /\ Vehicle.done v' = false.
Proof.
  apply (denied_at_end_waits 1 None car_left_red
           (car 1 95 10 [1%Z; 2%Z] red_lights)).
  - reflexivity.
  - apply prepared_left; lra.
  - rewrite tick_pos_left_red. simpl. lra.
  - reflexivity.
Defined.

(** ** Admission granted at the end of the street *)

Lemma tick_pos_left_green :
  tick_pos 1 None car_left_green (car 1 95 10 [1%Z; 2%Z] green_lights)
  = 95 + 10 * 1 * 1.
Proof. tick. Qed.

Lemma update_left_green :
  Vehicle.update 1 None car_left_green
  = Vehicle.Returned
      (Vehicle.mk 7 "normal" 1 1 side_street 1 0.0 [1%Z; 2%Z] 1 network
                  green_lights 0.0 2 4 (10 * 1) false).
Proof.
  rewrite (update_steps 1 None car_left_green (car 1 95 10 [1%Z; 2%Z] green_lights));
    [|reflexivity|apply prepared_left; lra].
  rewrite tick_pos_left_green. simpl. rdecide.
  rewrite (leave_street_next _ 2%Z side_street); reflexivity.
Qed.

(** C3, as stated, fails. [car_left_green] is not terminal, its update
    reaches the end of the street, the light is green and its route goes on
    into [side_street], which has two lanes. It was in lane 0 before the
    tick and is in lane 1 after it, not in lane [min 0 (2 - 1)]. *)
Lemma granted_car_changes_lane :
  Vehicle.done car_left_green = false
  /\ prepared car_left_green = inr (car 1 95 10 [1%Z; 2%Z] green_lights)
  /\ tick_pos 1 None car_left_green (car 1 95 10 [1%Z; 2%Z] green_lights)
     >= Street.length main_street
  /\ admission (car 1 95 10 [1%Z; 2%Z] green_lights) = Some true
  /\ (Vehicle.route_index car_left_green + 1
      < Z.of_nat (List.length (Vehicle.route_streets car_left_green)))%Z
  /\ py_getitem (Vehicle.route_streets car_left_green)
       (Vehicle.route_index car_left_green + 1) = inr 2%Z
  /\ Vehicle.streets_map car_left_green !! 2%Z = Some side_street
  /\ Vehicle.lane_index (Vehicle.state_of (Vehicle.update 1 None car_left_green))
     <> Z.min (Vehicle.lane_index car_left_green) (Street.num_lanes side_street - 1).
Proof.
  rewrite update_left_green, tick_pos_left_green.
  repeat split; try reflexivity.
  - apply prepared_left; lra.
  - simpl. lra.
  - simpl. lia.
Qed.

(** C3, amended. A vehicle that is not terminal, whose update reaches the
    end of its street, that is granted admission and whose route has a next
    street, is after the tick on that street at position 0 with speed 0;
    its lane index is the minimum of the lane index it has after the lane
    change of this tick and the next street's lane count minus one; its
    cached limit is the next street's limit times the speed factor. *)
Theorem granted_at_end_moves_on (dt : R) (leader : option Vehicle.t)
    (v v1 : Vehicle.t) (next_id : Z) (next_st : Street.t) :
  Vehicle.done v = false ->
  prepared v = inr v1 ->
  tick_pos dt leader v v1 >= Street.length (Vehicle.current_street v1) ->
  admission v1 = Some true ->
  (Vehicle.route_index v + 1
   < Z.of_nat (List.length (Vehicle.route_streets v)))%Z ->
  py_getitem (Vehicle.route_streets v) (Vehicle.route_index v + 1) = inr next_id ->
  Vehicle.streets_map v !! next_id = Some next_st ->
  exists v',
    Vehicle.update dt leader v = Vehicle.Returned v'
    /\ Vehicle.position_s v' = 0
    /\ Vehicle.speed v' = 0
    /\ Vehicle.current_street v' = next_st
    /\ Vehicle.lane_index v'
       = Z.min (Vehicle.lane_index v1) (Street.num_lanes next_st - 1)
    /\ Vehicle.base_speed_limit v'
       = Street.speed_limit next_st * Vehicle.speed_factor v
    /\ Vehicle.route_index v' = (Vehicle.route_index v + 1)%Z
    /\ Vehicle.done v' = false.
Proof.
  intros Hdone Hprep Hend Hgrant Hri Hid Hst.
  rewrite (update_steps dt leader v v1 Hdone Hprep).
  rewrite Rgeb_true by exact Hend.
  unfold prepared in Hprep.
  destruct (Vehicle._next_turn_direction v) as [e|td]; [discriminate|].
  simpl in Hprep. apply lane_change_frame in Hprep.
  rewrite (leave_street_next v1 next_id next_st Hgrant);
    try (rewrite Hprep; simpl; assumption).
  eexists. split; [reflexivity|].
  rewrite Hprep. simpl. repeat split; try assumption; try reflexivity; lra.
Qed.

Lemma granted_at_end_moves_on_witness :
  exists v',
    Vehicle.update 1 None car_left_green = Vehicle.Returned v'
    /\ Vehicle.position_s v' = 0
    /\ Vehicle.speed v' = 0
    /\ Vehicle.current_street v' = side_street
    /\ Vehicle.lane_index v' = Z.min 1 (2 - 1)
    /\ Vehicle.base_speed_limit v' = 10 * 1
    /\ Vehicle.route_index v' = (0 + 1)%Z
    /\ Vehicle.done v' = false.
Proof.
  apply (granted_at_end_moves_on 1 None car_left_green
           (car 1 95 10 [1%Z; 2%Z] green_lights) 2%Z side_street).
  - reflexivity.
  - apply prepared_left; lra.
  - rewrite tick_pos_left_green. simpl. lra.
  - reflexivity.
  - simpl. lia.
  - reflexivity.
  - reflexivity.
Defined.

(** ** The tick that stays on the street *)

Lemma tick_pos_boundary :
  tick_pos 1 None car_boundary car_boundary = 90 + 10 * 1 * 1.
Proof. tick. Qed.

Lemma update_boundary :
  Vehicle.update 1 None car_boundary
  = Vehicle.Returned
      (Vehicle.mk 7 "normal" 1 1 main_street 0 90 [1%Z] 1 network green_lights
                  10 2 4 10 true).
Proof.
  rewrite (update_steps 1 None car_boundary car_boundary);
    [|reflexivity|reflexivity].
  rewrite tick_pos_boundary. simpl. rdecide.
  rewrite leave_street_route_end; [reflexivity | reflexivity | simpl; lia].
Qed.

(** C4, as stated, fails. For [car_boundary] the new position is 100, which
    does not exceed the length 100 of its street; yet the update commits
    nothing of it: the position stays 90, the route cursor advances and the
    vehicle is marked terminal. *)
Lemma boundary_car_leaves :
  Vehicle.done car_boundary = false
  /\ 0 < 1
  /\ prepared car_boundary = inr car_boundary
  /\ tick_pos 1 None car_boundary car_boundary
     <= Street.length (Vehicle.current_street car_boundary)
  /\ Vehicle.position_s (Vehicle.state_of (Vehicle.update 1 None car_boundary))
     <> tick_pos 1 None car_boundary car_boundary
  /\ Vehicle.route_index (Vehicle.state_of (Vehicle.update 1 None car_boundary))
     <> Vehicle.route_index car_boundary
  /\ Vehicle.done (Vehicle.state_of (Vehicle.update 1 None car_boundary)) = true.
Proof.
  rewrite update_boundary, tick_pos_boundary.
  repeat split; try reflexivity.
  - lra.
  - simpl. lra.
  - simpl. lra.
  - simpl. lia.
Qed.

(** C4, amended. For a vehicle that is not terminal, if the new position
    computed by the update is strictly below the length of the street, then
    the update commits the new speed and the new position, and the street,
    the route cursor and the terminal flag are as before. *)
Theorem below_end_commits (dt : R) (leader : option Vehicle.t) (v v1 : Vehicle.t) :
  Vehicle.done v = false ->
  prepared v = inr v1 ->
  tick_pos dt leader v v1 < Street.length (Vehicle.current_street v1) ->
  exists v',
    Vehicle.update dt leader v = Vehicle.Returned v'
    /\ Vehicle.speed v' = tick_speed dt leader v v1
    /\ Vehicle.position_s v' = tick_pos dt leader v v1
    /\ Vehicle.current_street v' = Vehicle.current_street v
    /\ Vehicle.route_index v' = Vehicle.route_index v
    /\ Vehicle.done v' = false
    /\ Vehicle.base_speed_limit v' = Vehicle.base_speed_limit v.
Proof.
  intros Hdone Hprep Hlt.
  rewrite (update_steps dt leader v v1 Hdone Hprep).
  rewrite Rgeb_false by exact Hlt.
  unfold prepared in Hprep.
  destruct (Vehicle._next_turn_direction v) as [e|td]; [discriminate|].
  simpl in Hprep. apply lane_change_frame in Hprep.
  eexists. split; [reflexivity|].
  simpl. rewrite Hprep. simpl. repeat split; try assumption; reflexivity.
Qed.

Lemma tick_speed_cruising : tick_speed 1 None car_cruising car_cruising = 5 + 2 * 1.
Proof. tick. Qed.

Lemma below_end_commits_witness :
  exists v',
    Vehicle.update 1 None car_cruising = Vehicle.Returned v'
    /\ Vehicle.speed v' = tick_speed 1 None car_cruising car_cruising
    /\ Vehicle.position_s v' = tick_pos 1 None car_cruising car_cruising
    /\ Vehicle.current_street v' = main_street
    /\ Vehicle.route_index v' = 0%Z
    /\ Vehicle.done v' = false
    /\ Vehicle.base_speed_limit v' = 10.
Proof.
  apply (below_end_commits 1 None car_cruising car_cruising).
  - reflexivity.
  - apply prepared_far; lra.
  - unfold tick_pos. rewrite tick_speed_cruising. simpl.
    unfold Vehicle.new_pos. simpl. lra.
Defined.

(** ** Bounds, at work *)

Lemma network_lengths (k : Z) (st : Street.t) :
  network !! k = Some st -> 0 <= Street.length st.
Proof.
  unfold network. intros H.
  repeat (apply lookup_insert_Some in H as [[_ <-]|[_ H]]; [simpl; lra|]).
  apply lookup_singleton_Some in H as [_ <-]. simpl; lra.
Qed.

Lemma update_within_street_witness :
  within_street (Vehicle.state_of (Vehicle.update 1 None car_left_green)).
Proof.
  apply (update_within_street 1 None car_left_green).
  - lra.
  - exact network_lengths.
  - unfold within_street. simpl. lra.
Defined.

(** ** Braking behind a leader *)

Lemma leave_street_speed (v : Vehicle.t) :
  Vehicle.speed (Vehicle.state_of (Vehicle.leave_street v)) = 0
  \/ Vehicle.speed (Vehicle.state_of (Vehicle.leave_street v)) = Vehicle.speed v.
Proof.
  unfold Vehicle.leave_street.
  destruct (Vehicle.intersections_map v !! _) as [inter|]; [|right; reflexivity].
  destruct (negb _); [left; simpl; lra|].
  cbv zeta. destruct (_ >=? _)%Z; [right; reflexivity|].
  destruct (py_getitem _ _) as [e|next_st_id]; [right; reflexivity|].
  destruct (py_dict_get _ _) as [e|next_st]; [right; reflexivity|].
  left. simpl. lra.
Qed.

Lemma signal_accel_braking (v : Vehicle.t) :
  Vehicle.signal_accel v (- Vehicle.max_decel v) = - Vehicle.max_decel v.
Proof.
  unfold Vehicle.signal_accel. cbv zeta.
  destruct (Rltb _ _); [|reflexivity].
  destruct (Vehicle.intersections_map v !! _); [|reflexivity].
  destruct (negb _); reflexivity.
Qed.

(** C5. For every non-terminal vehicle updated with [dt > 0] and a leader on
    the same street and in the same lane, if the gap
    [leader.position - self.position - 5] is below
    [self.speed * self.reaction_time], then the acceleration wanted is
    [- max_decel], it is still so when the speed is integrated, and the speed
    after the tick is at most the speed before it. The vehicle's speed and
    its maximal deceleration are non-negative, as they are from construction
    on. *)
Theorem close_leader_brakes (dt : R) (l v : Vehicle.t) :
  Vehicle.done v = false ->
  0 < dt ->
  Vehicle.current_street_id l = Vehicle.current_street_id v ->
  Vehicle.lane_index l = Vehicle.lane_index v ->
  Vehicle.position_s l - Vehicle.position_s v - 5
  < Vehicle.speed v * Vehicle.reaction_time v ->
  0 <= Vehicle.speed v ->
  0 <= Vehicle.max_decel v ->
  Vehicle.leader_accel v (Some l) = - Vehicle.max_decel v
  /\ (forall v1, prepared v = inr v1 ->
        Vehicle.signal_accel v1 (Vehicle.leader_accel v (Some l))
        = - Vehicle.max_decel v)
  /\ Vehicle.speed (Vehicle.state_of (Vehicle.update dt (Some l) v))
     <= Vehicle.speed v.
Proof.
  intros Hdone Hdt Hst Hlane Hgap Hs Hdec.
  assert (Hacc : Vehicle.leader_accel v (Some l) = - Vehicle.max_decel v).
  { unfold Vehicle.leader_accel. cbv zeta.
    rewrite Hst, Hlane, !Z.eqb_refl. rewrite Rltb_true by lra. reflexivity. }
  assert (Hframe : forall v1, prepared v = inr v1 ->
            v1 = Vehicle.set_lane_index (Vehicle.lane_index v1) v).
  { intros v1 Hprep. unfold prepared in Hprep.
    destruct (Vehicle._next_turn_direction v) as [e|td]; [discriminate|].
    simpl in Hprep. apply lane_change_frame in Hprep. exact Hprep. }
  assert (Hsig : forall v1, prepared v = inr v1 ->
            Vehicle.signal_accel v1 (Vehicle.leader_accel v (Some l))
            = - Vehicle.max_decel v).
  { intros v1 Hprep. rewrite Hacc.
    replace (Vehicle.max_decel v) with (Vehicle.max_decel v1)
      by (rewrite (Hframe v1 Hprep); reflexivity).
    apply signal_accel_braking. }
  split; [exact Hacc|]. split; [exact Hsig|].
  destruct (prepared v) as [e|v1] eqn:Hprep.
  - rewrite (update_raises dt (Some l) v e Hdone Hprep). simpl. lra.
  - rewrite (update_steps dt (Some l) v v1 Hdone Hprep).
    pose proof (Hframe v1 eq_refl) as Hf.
    pose proof (Hsig v1 eq_refl) as Hsg.
    assert (Hs1 : Vehicle.speed v1 = Vehicle.speed v)
      by (rewrite Hf; reflexivity).
    assert (Hd1 : Vehicle.max_decel v1 = Vehicle.max_decel v)
      by (rewrite Hf; reflexivity).
    destruct (Rgeb _ _).
    + destruct (leave_street_speed v1) as [-> | ->]; lra.
    + simpl. unfold tick_speed. rewrite Hsg, <- Hd1, <- Hs1.
      apply new_speed_braking; lra.
Qed.

Lemma close_leader_brakes_witness :
  Vehicle.leader_accel car_following (Some car_ahead) = - (4)
  /\ (forall v1, prepared car_following = inr v1 ->
        Vehicle.signal_accel v1 (Vehicle.leader_accel car_following (Some car_ahead))
        = - (4))
  /\ Vehicle.speed (Vehicle.state_of (Vehicle.update 1 (Some car_ahead) car_following))
     <= 10.
Proof.
  apply (close_leader_brakes 1 car_ahead car_following).
  - reflexivity.
  - lra.
  - reflexivity.
  - reflexivity.
  - simpl. lra.
  - simpl. lra.
  - simpl. lra.
Defined.

(** ** The classification of the turn ahead *)

(** C6, as stated, fails. [car_uturn] leaves [back_street], heading west,
    for [main_street], heading east. The difference of headings is -180
    degrees; its representative in (-180, 180] is 180, which is above 30 and
    would make the turn a right one. The source leaves -180 as it is and
    answers "left". *)
Lemma uturn_is_left :
  (Vehicle.route_index car_uturn
   < Z.of_nat (List.length (Vehicle.route_streets car_uturn)) - 1)%Z
  /\ Vehicle.heading_diff (0, 0) (100, 0) (100, 0) (0, 0) = -180
  /\ normalize_half_open (Vehicle.heading_diff (0, 0) (100, 0) (100, 0) (0, 0)) = 180
  /\ Vehicle.classify_diff
       (normalize_half_open (Vehicle.heading_diff (0, 0) (100, 0) (100, 0) (0, 0)))
     = Right
  /\ Vehicle._next_turn_direction car_uturn = inr (Some Left).
Proof.
  rewrite back_to_main, turn_back_main.
  assert (Hn : normalize_half_open (-180) = 180).
  { unfold normalize_half_open, Rgtb. rewrite Rltb_false by lra.
    rewrite Rgeb_true by lra. lra. }
  rewrite Hn. repeat split; try reflexivity.
  apply classify_right. lra.
Qed.

(** C6, amended. The classification is "none" when the route has no street
    beyond the current one. Otherwise the difference [d] of the [atan2]
    headings of the last edge of the current street and of the first edge of
    the next street, in degrees, is normalised into the closed interval
    [-180, 180]: it is the representative of [d] in (-180, 180] except for
    [d = -180], which stays -180. The answer is "right" above 30, "left"
    below -30 and "through" otherwise. *)
Theorem next_turn_direction_classifies (v : Vehicle.t) :
  ((Vehicle.route_index v
    >= Z.of_nat (List.length (Vehicle.route_streets v)) - 1)%Z ->
   Vehicle._next_turn_direction v = inr None)
  /\ (forall (next_id : Z) (next_st : Street.t) (pre rest : list (R * R))
             (c2 c1 n0 n1 : R * R),
        (Vehicle.route_index v
         < Z.of_nat (List.length (Vehicle.route_streets v)) - 1)%Z ->
        py_getitem (Vehicle.route_streets v) (Vehicle.route_index v + 1)
        = inr next_id ->
        Vehicle.streets_map v !! next_id = Some next_st ->
        Street.coords (Vehicle.current_street v) = pre ++ [c2; c1] ->
        Street.coords next_st = n0 :: n1 :: rest ->
        let d := degrees (atan2 (snd n1 - snd n0) (fst n1 - fst n0)
                          - atan2 (snd c1 - snd c2) (fst c1 - fst c2)) in
        let nd := Vehicle.normalize_diff d in
        -180 <= nd <= 180
        /\ (d <> -180 -> nd = normalize_half_open d)
        /\ (d = -180 -> nd = -180)
        /\ Vehicle._next_turn_direction v
           = inr (Some (if Rgtb nd 30 then Right
                        else if Rltb nd (-30) then Left
                        else Through))).
Proof.
  split; [apply next_turn_direction_none|].
  intros next_id next_st pre rest c2 c1 n0 n1 Hri Hid Hst Hc Hn d nd.
  assert (Hd : d = Vehicle.heading_diff c1 c2 n1 n0) by reflexivity.
  split; [|split; [|split]].
  - apply normalize_diff_range. rewrite Hd. apply heading_diff_bound.
  - apply normalize_diff_half_open.
  - intros ->. apply normalize_diff_id. lra.
  - rewrite (next_turn_direction_eval v next_id next_st pre rest c2 c1 n0 n1);
      try assumption.
    reflexivity.
Qed.

Lemma next_turn_direction_classifies_witness :
  let d := degrees (atan2 (snd (100, -50) - snd (100, 0)) (fst (100, -50) - fst (100, 0))
                    - atan2 (snd (100, 0) - snd (0, 0)) (fst (100, 0) - fst (0, 0))) in
  let nd := Vehicle.normalize_diff d in
  -180 <= nd <= 180
  /\ (d <> -180 -> nd = normalize_half_open d)
  /\ (d = -180 -> nd = -180)
  /\ Vehicle._next_turn_direction car_left_green
     = inr (Some (if Rgtb nd 30 then Right
                  else if Rltb nd (-30) then Left
                  else Through)).
Proof.
  apply (proj2 (next_turn_direction_classifies car_left_green)
           2%Z side_street [] [] (0, 0) (100, 0) (100, 0) (100, -50)).
  - simpl. lia.
  - reflexivity.
  - reflexivity.
  - reflexivity.
  - reflexivity.
Defined.

(** ** A lane that already allows the turn *)

Lemma tick_pos_through :
  tick_pos 1 None car_through car_through = 95 + 10 * 1 * 1.
Proof. tick. Qed.

Lemma update_through :
  Vehicle.update 1 None car_through
  = Vehicle.Returned
      (Vehicle.mk 7 "normal" 1 1 ahead_street 0 0.0 [1%Z; 3%Z] 1 network
                  green_lights 0.0 2 4 (10 * 1) false).
Proof.
  rewrite (update_steps 1 None car_through car_through);
    [|reflexivity|apply prepared_through].
  rewrite tick_pos_through. simpl. rdecide.
  rewrite (leave_street_next _ 3%Z ahead_street); reflexivity.
Qed.

(** C7, as stated, fails. [car_through] is not terminal, the turn ahead of
    it is "through" and its lane, lane 1, allows it. The update takes it
    onto [ahead_street], which has a single lane: it ends the tick in
    lane 0. *)
Lemma allowed_car_is_clamped :
  Vehicle.done car_through = false
  /\ Vehicle._next_turn_direction car_through = inr (Some Through)
  /\ Vehicle._lane_allows_turn (Vehicle.current_street car_through)
       (Vehicle.lane_index car_through) Through = inr true
  /\ Vehicle.lane_index (Vehicle.state_of (Vehicle.update 1 None car_through))
     <> Vehicle.lane_index car_through.
Proof.
  rewrite update_through.
  repeat split; try reflexivity.
  - apply turn_main_ahead.
  - simpl. lia.
Qed.

Lemma lane_allowed_range (st : Street.t) (ln : Z) (td : turn) :
  Vehicle._lane_allows_turn st ln td = inr true ->
  (0 <= ln < Street.num_lanes st)%Z.
Proof.
  unfold Vehicle._lane_allows_turn. intros H.
  destruct (Z.ltb_spec ln 0); [discriminate|].
  destruct (Z.geb_spec ln (Street.num_lanes st)); [discriminate|]. lia.
Qed.

Lemma lane_change_allowed (v : Vehicle.t) (td : turn) :
  Vehicle._lane_allows_turn (Vehicle.current_street v) (Vehicle.lane_index v) td
  = inr true ->
  Vehicle.lane_change v (Some td) = inr v.
Proof.
  intros H. unfold Vehicle.lane_change. cbv zeta.
  destruct (Rltb _ _); [|reflexivity]. rewrite H. reflexivity.
Qed.

Lemma leave_street_lane (v : Vehicle.t) :
  (Vehicle.lane_index (Vehicle.state_of (Vehicle.leave_street v))
   = Vehicle.lane_index v
   /\ Vehicle.current_street (Vehicle.state_of (Vehicle.leave_street v))
      = Vehicle.current_street v)
  \/ Vehicle.lane_index (Vehicle.state_of (Vehicle.leave_street v))
     = Z.min (Vehicle.lane_index v)
         (Street.num_lanes
            (Vehicle.current_street (Vehicle.state_of (Vehicle.leave_street v))) - 1).
Proof.
  unfold Vehicle.leave_street.
  destruct (Vehicle.intersections_map v !! _) as [inter|]; [|left; split; reflexivity].
  destruct (negb _); [left; split; reflexivity|].
  cbv zeta. destruct (_ >=? _)%Z; [left; split; reflexivity|].
  destruct (py_getitem _ _) as [e|next_st_id]; [left; split; reflexivity|].
  destruct (py_dict_get _ _) as [e|next_st]; [left; split; reflexivity|].
  right. reflexivity.
Qed.

(** C7, amended. For a vehicle that is not terminal, with a turn ahead that
    its lane already allows, the lane change of the tick leaves the vehicle
    as it is, and the lane index after the update is the minimum of the lane
    index before it and the lane count, minus one, of the street the vehicle
    is then on: the lane index before the update as long as the vehicle
    stays on its street, clamped when it moves onto the next one. *)
Theorem allowed_lane_kept (dt : R) (leader : option Vehicle.t)
    (v : Vehicle.t) (td : turn) :
  Vehicle.done v = false ->
  Vehicle._next_turn_direction v = inr (Some td) ->
  Vehicle._lane_allows_turn (Vehicle.current_street v) (Vehicle.lane_index v) td
  = inr true ->
  prepared v = inr v
  /\ Vehicle.lane_index (Vehicle.state_of (Vehicle.update dt leader v))
     = Z.min (Vehicle.lane_index v)
         (Street.num_lanes
            (Vehicle.current_street
               (Vehicle.state_of (Vehicle.update dt leader v))) - 1)
  /\ (Vehicle.current_street (Vehicle.state_of (Vehicle.update dt leader v))
      = Vehicle.current_street v ->
      Vehicle.lane_index (Vehicle.state_of (Vehicle.update dt leader v))
      = Vehicle.lane_index v).
Proof.
  intros Hdone Hturn Hallow.
  pose proof (lane_allowed_range _ _ _ Hallow) as Hrange.
  assert (Hprep : prepared v = inr v).
  { unfold prepared. rewrite Hturn. simpl. apply lane_change_allowed, Hallow. }
  split; [exact Hprep|].
  rewrite (update_steps dt leader v v Hdone Hprep).
  destruct (Rgeb _ _).
  - destruct (leave_street_lane v) as [[Hl Hc] | Hl].
    + rewrite Hl, Hc. split; [lia | reflexivity].
    + split; [exact Hl|]. intros Hc. rewrite Hl, Hc. lia.
  - simpl. split; [lia | reflexivity].
Qed.

Lemma allowed_lane_kept_witness :
  prepared car_through = inr car_through
  /\ Vehicle.lane_index (Vehicle.state_of (Vehicle.update 1 None car_through))
     = Z.min 1
         (Street.num_lanes
            (Vehicle.current_street
               (Vehicle.state_of (Vehicle.update 1 None car_through))) - 1)
  /\ (Vehicle.current_street (Vehicle.state_of (Vehicle.update 1 None car_through))
      = main_street ->
      Vehicle.lane_index (Vehicle.state_of (Vehicle.update 1 None car_through))
      = 1%Z).
Proof.
  apply (allowed_lane_kept 1 None car_through Through).
  - reflexivity.
  - apply turn_main_ahead.
  - reflexivity.
Defined.

(** ** Moving and stretching the map *)

Lemma Rltb_scale_pos (k x : R) : 0 < k -> Rltb 0 (k * x) = Rltb 0 x.
Proof.
  intros Hk. unfold Rltb.
  destruct (Rlt_dec 0 (k * x)), (Rlt_dec 0 x); try reflexivity; exfalso; nra.
Qed.

Lemma Rltb_scale_neg (k x : R) : 0 < k -> Rltb (k * x) 0 = Rltb x 0.
Proof.
  intros Hk. unfold Rltb.
  destruct (Rlt_dec (k * x) 0), (Rlt_dec x 0); try reflexivity; exfalso; nra.
Qed.

(** The heading of a vector does not depend on its length. *)
Lemma atan2_scale (k y x : R) : 0 < k -> atan2 (k * y) (k * x) = atan2 y x.
Proof.
  intros Hk. unfold atan2.
  rewrite !Rltb_scale_pos, !Rltb_scale_neg by exact Hk.
  destruct (Rltb 0 x) eqn:Hpos.
  - apply Rltb_spec in Hpos.
    replace (k * y / (k * x)) with (y / x) by (field; lra). reflexivity.
  - destruct (Rltb x 0) eqn:Hneg; [|reflexivity].
    apply Rltb_spec in Hneg.
    replace (k * y / (k * x)) with (y / x) by (field; lra). reflexivity.
Qed.

Lemma heading_diff_translate (dx dy : R) (c1 c2 n1 n0 : R * R) :
  Vehicle.heading_diff (fst c1 + dx, snd c1 + dy) (fst c2 + dx, snd c2 + dy)
    (fst n1 + dx, snd n1 + dy) (fst n0 + dx, snd n0 + dy)
  = Vehicle.heading_diff c1 c2 n1 n0.
Proof.
  unfold Vehicle.heading_diff. simpl.
  replace (c1.2 + dy - (c2.2 + dy)) with (c1.2 - c2.2) by ring.
  replace (c1.1 + dx - (c2.1 + dx)) with (c1.1 - c2.1) by ring.
  replace (n1.2 + dy - (n0.2 + dy)) with (n1.2 - n0.2) by ring.
  replace (n1.1 + dx - (n0.1 + dx)) with (n1.1 - n0.1) by ring.
  reflexivity.
Qed.

Lemma heading_diff_scale (k : R) (c1 c2 n1 n0 : R * R) :
  0 < k ->
  Vehicle.heading_diff (k * fst c1, k * snd c1) (k * fst c2, k * snd c2)
    (k * fst n1, k * snd n1) (k * fst n0, k * snd n0)
  = Vehicle.heading_diff c1 c2 n1 n0.
Proof.
  intros Hk. unfold Vehicle.heading_diff. simpl.
  replace (k * c1.2 - k * c2.2) with (k * (c1.2 - c2.2)) by ring.
  replace (k * c1.1 - k * c2.1) with (k * (c1.1 - c2.1)) by ring.
  replace (k * n1.2 - k * n0.2) with (k * (n1.2 - n0.2)) by ring.
  replace (k * n1.1 - k * n0.1) with (k * (n1.1 - n0.1)) by ring.
  rewrite !atan2_scale by exact Hk. reflexivity.
Qed.

(** On exact reals, the class of the turn from one street into another is
    the same when the coordinates of both are moved by one vector, and the
    same when all coordinates are stretched by one positive factor, the
    case in which a polyline is too short and the classification raises
    included. This is a fact of the geometry only. The program computes the
    edges, [atan2] and [degrees] in binary64, where moved or stretched
    coordinates are rounded and the difference of two opposite headings can
    come out just above 180 degrees and wrap: from [(3,4),(0,0)] into
    [(0,0),(3,4)] the turn is "right", and it is "left" once both polylines
    are moved by (0.1, 0.1) or stretched by 0.1. The invariance is therefore
    not a property of the program, and no claim rests on this lemma. *)
Lemma turn_between_invariant (cur next : Street.t) :
  (forall dx dy : R,
     Vehicle.turn_between (translate dx dy cur) (translate dx dy next)
     = Vehicle.turn_between cur next)
  /\ (forall k : R, 0 < k ->
        Vehicle.turn_between (scale k cur) (scale k next)
        = Vehicle.turn_between cur next).
Proof.
  split.
  - intros dx dy. unfold Vehicle.turn_between, translate, with_coords. simpl.
    rewrite !py_getitem_map.
    destruct (py_getitem (Street.coords cur) (-1)) as [e|c1]; [reflexivity|].
    destruct (py_getitem (Street.coords cur) (-2)) as [e|c2]; [reflexivity|].
    destruct (py_getitem (Street.coords next) 1) as [e|n1]; [reflexivity|].
    destruct (py_getitem (Street.coords next) 0) as [e|n0]; [reflexivity|].
    simpl. rewrite heading_diff_translate. reflexivity.
  - intros k Hk. unfold Vehicle.turn_between, scale, with_coords. simpl.
    rewrite !py_getitem_map.
    destruct (py_getitem (Street.coords cur) (-1)) as [e|c1]; [reflexivity|].
    destruct (py_getitem (Street.coords cur) (-2)) as [e|c2]; [reflexivity|].
    destruct (py_getitem (Street.coords next) 1) as [e|n1]; [reflexivity|].
    destruct (py_getitem (Street.coords next) 0) as [e|n0]; [reflexivity|].
    simpl. rewrite heading_diff_scale by exact Hk. reflexivity.
Qed.

Lemma turn_between_invariant_witness :
  Vehicle.turn_between (translate 3 (-7) main_street) (translate 3 (-7) side_street)
  = Vehicle.turn_between main_street side_street
  /\ Vehicle.turn_between (scale 2 main_street) (scale 2 side_street)
     = Vehicle.turn_between main_street side_street.
Proof.
  split.
  - apply (proj1 (turn_between_invariant main_street side_street)).
  - apply (proj2 (turn_between_invariant main_street side_street)). lra.
Defined.

(** ** The cached speed limit *)

Lemma init_limit_cached (vehicle_id : Z) (profile : string) (st : Street.t)
    (lane : Z) (route : list Z) (streets : gmap Z Street.t)
    (lights : gmap string Intersection.t) (v : Vehicle.t) :
  Vehicle.__init__ vehicle_id profile st lane route streets lights = inr v ->
  limit_cached v.
Proof.
  unfold Vehicle.__init__. intros H.
  destruct (profile_lookup VEHICLE_PROFILES profile) as [e|[sf rt]];
    [discriminate|].
  injection H as <-. reflexivity.
Qed.

Lemma leave_street_limit_cached (v : Vehicle.t) :
  limit_cached v -> limit_cached (Vehicle.state_of (Vehicle.leave_street v)).
Proof.
  intros Hv. unfold Vehicle.leave_street.
  destruct (Vehicle.intersections_map v !! _) as [inter|]; [|exact Hv].
  destruct (negb _); [exact Hv|].
  cbv zeta. destruct (_ >=? _)%Z; [exact Hv|].
  destruct (py_getitem _ _) as [e|next_st_id]; [exact Hv|].
  destruct (py_dict_get _ _) as [e|next_st]; [exact Hv|].
  reflexivity.
Qed.

Lemma update_limit_cached (dt : R) (leader : option Vehicle.t) (v : Vehicle.t) :
  limit_cached v -> limit_cached (Vehicle.state_of (Vehicle.update dt leader v)).
Proof.
  intros Hv. unfold Vehicle.update.
  destruct (Vehicle.done v); [exact Hv|].
  destruct (Vehicle._next_turn_direction v) as [e|td]; [exact Hv|].
  destruct (Vehicle.lane_change v td) as [e|v1] eqn:Hlc; [exact Hv|].
  apply lane_change_frame in Hlc.
  assert (Hv1 : limit_cached v1) by (rewrite Hlc; exact Hv).
  cbv zeta. destruct (Rgeb _ _).
  - apply leave_street_limit_cached, Hv1.
  - exact Hv1.
Qed.

Lemma run_limit_cached (calls : list (R * option Vehicle.t)) (v : Vehicle.t) :
  limit_cached v -> limit_cached (run calls v).
Proof.
  revert v. induction calls as [|[dt leader] calls IH]; intros v Hv.
  - exact Hv.
  - simpl. apply IH, update_limit_cached, Hv.
Qed.

Lemma final_limit_cached (v : Vehicle.t) :
  limit_cached v ->
  Vehicle.final_limit v
  = Street.speed_limit (Vehicle.current_street v) * Vehicle.speed_factor v.
Proof.
  unfold limit_cached, Vehicle.final_limit. intros ->. apply py_min_same.
Qed.

(** C10. After construction and after every call of [update], the cached
    base speed limit is the speed limit of the current street times the
    speed factor. Hence the ceiling of the speed integration, the minimum of
    that product and the cached limit, is that product, and the cached limit
    is never the smaller of the two. *)
Theorem base_speed_limit_cached (vehicle_id : Z) (profile : string)
    (st : Street.t) (lane : Z) (route : list Z) (streets : gmap Z Street.t)
    (lights : gmap string Intersection.t) (v : Vehicle.t)
    (calls : list (R * option Vehicle.t)) :
  Vehicle.__init__ vehicle_id profile st lane route streets lights = inr v ->
  Vehicle.base_speed_limit (run calls v)
  = Street.speed_limit (Vehicle.current_street (run calls v))
    * Vehicle.speed_factor (run calls v)
  /\ Vehicle.final_limit (run calls v)
     = Street.speed_limit (Vehicle.current_street (run calls v))
       * Vehicle.speed_factor (run calls v)
  /\ ~ Vehicle.base_speed_limit (run calls v)
       < Street.speed_limit (Vehicle.current_street (run calls v))
         * Vehicle.speed_factor (run calls v).
Proof.
  intros Hinit.
  assert (Hc : limit_cached (run calls v))
    by (eapply run_limit_cached, init_limit_cached, Hinit).
  split; [exact Hc|]. split; [apply final_limit_cached, Hc|].
  rewrite Hc. apply Rlt_irrefl.
Qed.

Lemma base_speed_limit_cached_witness :
  Vehicle.base_speed_limit (run [(1, None); (1, Some car_ahead)] car_new)
  = Street.speed_limit
      (Vehicle.current_street (run [(1, None); (1, Some car_ahead)] car_new))
    * Vehicle.speed_factor (run [(1, None); (1, Some car_ahead)] car_new)
  /\ Vehicle.final_limit (run [(1, None); (1, Some car_ahead)] car_new)
     = Street.speed_limit
         (Vehicle.current_street (run [(1, None); (1, Some car_ahead)] car_new))
       * Vehicle.speed_factor (run [(1, None); (1, Some car_ahead)] car_new)
  /\ ~ Vehicle.base_speed_limit (run [(1, None); (1, Some car_ahead)] car_new)
       < Street.speed_limit
           (Vehicle.current_street (run [(1, None); (1, Some car_ahead)] car_new))
         * Vehicle.speed_factor (run [(1, None); (1, Some car_ahead)] car_new).
Proof.
  apply (base_speed_limit_cached 7 "normal" main_street 0 [1%Z; 2%Z] network
           green_lights).
  reflexivity.
Defined.

(** ** Placing the fleet *)

Lemma place_rejecting (fuel : nat) :
  Simulator.place 1 rejecting first_choice largest fuel one_requested
  = Simulator.Running one_requested.
Proof.
  induction fuel as [|fuel IH]; [reflexivity|]. simpl. exact IH.
Qed.

(** C8, as stated, fails. With one street that rejects every batch and one
    vehicle requested, the loop is still running after any number of
    iterations: it neither ends nor raises. *)
Lemma rejecting_streets_never_stop :
  ~ exists fuel : nat,
      Simulator.stops_within 1 rejecting (fun _ => tt) first_choice largest
        fuel one_requested.
Proof.
  intros [fuel H]. unfold Simulator.stops_within, Simulator._create_vehicles in H.
  change (Simulator.mk _ _ _ _ _) with one_requested in H.
  rewrite place_rejecting in H. exact H.
Qed.

Section PlacementProperties.

Context {layout rng : Type}.
Variable n_streets : nat.
Variable create_vehicle : nat -> Z -> layout -> bool * layout.
Variable seed_rng : Z -> rng.
Variable choice : nat -> rng -> nat * rng.
Variable randint : Z -> Z -> rng -> Z * rng.

(** [random.randint(a, b)] draws from [a..b]. *)
Hypothesis randint_range :
  forall (a b : Z) (g : rng), (a <= b)%Z -> (a <= fst (randint a b g) <= b)%Z.

Let place := Simulator.place n_streets create_vehicle choice randint.

Lemma placed_app (s : Simulator.t layout rng) (count : Z) (c : layout) (g : rng) :
  Simulator.placed
    (Simulator.mk (Simulator.vehicle_count s - count) (Simulator.seed s) c g
                  (Simulator.accepted s ++ [count]))
  = (Simulator.placed s + count)%Z.
Proof.
  unfold Simulator.placed. simpl.
  induction (Simulator.accepted s) as [|x xs IH]; simpl; lia.
Qed.

(** What is placed and what remains add up to what was requested, and the
    remainder stays between 0 and the request. *)
Lemma place_accounts (fuel : nat) (s : Simulator.t layout rng) :
  (0 <= Simulator.vehicle_count s)%Z ->
  (Simulator.placed (Simulator.state_of (place fuel s))
   + Simulator.vehicle_count (Simulator.state_of (place fuel s))
   = Simulator.placed s + Simulator.vehicle_count s)%Z
  /\ (0 <= Simulator.vehicle_count (Simulator.state_of (place fuel s))
      <= Simulator.vehicle_count s)%Z.
Proof.
  revert s. induction fuel as [|fuel IH]; intros s Hs; unfold place in *; simpl.
  - destruct (_ >? 0)%Z; simpl; lia.
  - destruct (Z.gtb_spec (Simulator.vehicle_count s) 0) as [Hpos|Hle];
      [|simpl; lia].
    destruct (Nat.eqb n_streets 0); [simpl; lia|].
    destruct (choice n_streets (Simulator.random_state s)) as [street g1].
    pose proof (randint_range 1 (Simulator.vehicle_count s) g1 ltac:(lia))
      as Hcount.
    destruct (randint 1 (Simulator.vehicle_count s) g1) as [count g2].
    simpl in Hcount.
    destruct (create_vehicle street count (Simulator.city_layout s)) as [ok c'].
    destruct ok.
    + match goal with
      | |- context [Simulator.place _ _ _ _ fuel ?s'] =>
          destruct (IH s') as [Hsum Hrem]; [simpl; lia|];
          rewrite Hsum, placed_app; simpl in *; split; lia
      end.
    + match goal with
      | |- context [Simulator.place _ _ _ _ fuel ?s'] =>
          destruct (IH s') as [Hsum Hrem]; [simpl; lia|];
          rewrite Hsum; simpl in *; split; [reflexivity | lia]
      end.
Qed.

(** When the loop has left the [while], nothing remains to be placed. *)
Lemma place_finished (fuel : nat) (s s' : Simulator.t layout rng) :
  (0 <= Simulator.vehicle_count s)%Z ->
  place fuel s = Simulator.Finished s' ->
  Simulator.vehicle_count s' = 0%Z.
Proof.
  revert s. induction fuel as [|fuel IH]; intros s Hs; unfold place in *; simpl.
  - destruct (Z.gtb_spec (Simulator.vehicle_count s) 0) as [Hpos|Hle];
      [discriminate|].
    intros Hfin. injection Hfin as <-. lia.
  - destruct (Z.gtb_spec (Simulator.vehicle_count s) 0) as [Hpos|Hle];
      [|intros Hfin; injection Hfin as <-; lia].
    destruct (Nat.eqb n_streets 0); [discriminate|].
    destruct (choice n_streets (Simulator.random_state s)) as [street g1].
    pose proof (randint_range 1 (Simulator.vehicle_count s) g1 ltac:(lia))
      as Hcount.
    destruct (randint 1 (Simulator.vehicle_count s) g1) as [count g2].
    simpl in Hcount.
    destruct (create_vehicle street count (Simulator.city_layout s)) as [ok c'].
    destruct ok; apply IH; simpl; lia.
Qed.

(** Streets that accept every batch are served within as many iterations as
    vehicles were requested. *)
Lemma place_accepting (fuel : nat) (s : Simulator.t layout rng) :
  (forall i c l, fst (create_vehicle i c l) = true) ->
  n_streets <> O ->
  (0 <= Simulator.vehicle_count s <= Z.of_nat fuel)%Z ->
  exists s', place fuel s = Simulator.Finished s'.
Proof.
  intros Hacc Hn. revert s.
  induction fuel as [|fuel IH]; intros s Hs; unfold place in *; simpl.
  - destruct (Z.gtb_spec (Simulator.vehicle_count s) 0); [lia|]. eauto.
  - destruct (Z.gtb_spec (Simulator.vehicle_count s) 0) as [Hpos|Hle]; [|eauto].
    destruct (Nat.eqb_spec n_streets 0); [contradiction|].
    destruct (choice n_streets (Simulator.random_state s)) as [street g1].
    pose proof (randint_range 1 (Simulator.vehicle_count s) g1 ltac:(lia))
      as Hcount.
    destruct (randint 1 (Simulator.vehicle_count s) g1) as [count g2].
    simpl in Hcount.
    pose proof (Hacc street count (Simulator.city_layout s)) as Hok.
    destruct (create_vehicle street count (Simulator.city_layout s)) as [ok c'].
    simpl in Hok. subst ok. apply IH. simpl. lia.
Qed.

(** Streets that reject every batch keep the loop running. *)
Lemma place_all_rejecting (fuel : nat) (s : Simulator.t layout rng) :
  (forall i c l, fst (create_vehicle i c l) = false) ->
  n_streets <> O ->
  (0 < Simulator.vehicle_count s)%Z ->
  exists s', place fuel s = Simulator.Running s'.
Proof.
  intros Hrej Hn. revert s.
  induction fuel as [|fuel IH]; intros s Hs; unfold place in *; simpl.
  - destruct (Z.gtb_spec (Simulator.vehicle_count s) 0); [eauto | lia].
  - destruct (Z.gtb_spec (Simulator.vehicle_count s) 0) as [Hpos|Hle]; [|lia].
    destruct (Nat.eqb_spec n_streets 0); [contradiction|].
    destruct (choice n_streets (Simulator.random_state s)) as [street g1].
    destruct (randint 1 (Simulator.vehicle_count s) g1) as [count g2].
    pose proof (Hrej street count (Simulator.city_layout s)) as Hok.
    destruct (create_vehicle street count (Simulator.city_layout s)) as [ok c'].
    simpl in Hok. subst ok. apply IH. simpl. lia.
Qed.

End PlacementProperties.

(** C8, amended. The loop of [_create_vehicles] has no bound on its retries
    and no explicit failure: with streets that reject every batch it is
    still running after any number of iterations. For a request that is not
    negative, whatever the streets answer and at every point of the run, the
    batches accepted and the remaining count add up to the request, so that
    never more than requested is placed; when the loop ends, the remaining
    count is exactly 0 and exactly the request has been placed; and with
    streets that accept every batch it ends within as many iterations as
    vehicles were requested. *)
Theorem create_vehicles_accounts {layout rng : Type} (n_streets : nat)
    (create_vehicle : nat -> Z -> layout -> bool * layout)
    (seed_rng : Z -> rng) (choice : nat -> rng -> nat * rng)
    (randint : Z -> Z -> rng -> Z * rng)
    (fuel : nat) (s : Simulator.t layout rng) :
  (forall (a b : Z) (g : rng),
      (a <= b)%Z -> (a <= fst (randint a b g) <= b)%Z) ->
  (0 <= Simulator.vehicle_count s)%Z ->
  Simulator.accepted s = [] ->
  let r := Simulator._create_vehicles n_streets create_vehicle seed_rng choice
             randint fuel s in
  (Simulator.placed (Simulator.state_of r)
   + Simulator.vehicle_count (Simulator.state_of r)
   = Simulator.vehicle_count s)%Z
  /\ (0 <= Simulator.placed (Simulator.state_of r) <= Simulator.vehicle_count s)%Z
  /\ (forall s', r = Simulator.Finished s' ->
        Simulator.vehicle_count s' = 0%Z
        /\ Simulator.placed s' = Simulator.vehicle_count s)
  /\ ((forall i c l, fst (create_vehicle i c l) = true) ->
      n_streets <> O ->
      (Simulator.vehicle_count s <= Z.of_nat fuel)%Z ->
      exists s', r = Simulator.Finished s')
  /\ ((forall i c l, fst (create_vehicle i c l) = false) ->
      n_streets <> O ->
      (0 < Simulator.vehicle_count s)%Z ->
      exists s', r = Simulator.Running s').
Proof.
  intros Hrand Hs Hlog r. subst r. unfold Simulator._create_vehicles.
  set (s0 := Simulator.mk _ _ _ _ _).
  assert (Hs0 : (0 <= Simulator.vehicle_count s0)%Z) by exact Hs.
  assert (Hp0 : Simulator.placed s0 = 0%Z)
    by (unfold Simulator.placed, s0; simpl; rewrite Hlog; reflexivity).
  destruct (place_accounts n_streets create_vehicle choice randint Hrand
              fuel s0 Hs0) as [Hsum Hrem].
  rewrite Hp0 in Hsum. change (Simulator.vehicle_count s0)
    with (Simulator.vehicle_count s) in *.
  split; [lia|]. split; [lia|]. split; [|split].
  - intros s' Hfin.
    pose proof (place_finished n_streets create_vehicle choice randint Hrand
                  fuel s0 s' Hs0 Hfin) as Hzero.
    rewrite Hfin in Hsum. simpl in Hsum. split; [exact Hzero | lia].
  - intros Hacc Hn Hfuel.
    apply (place_accepting n_streets create_vehicle choice randint Hrand);
      try assumption.
    change (Simulator.vehicle_count s0) with (Simulator.vehicle_count s). lia.
  - intros Hrej Hn Hpos.
    apply (place_all_rejecting n_streets create_vehicle choice randint);
      assumption.
Qed.

Lemma create_vehicles_accounts_witness :
  exists s',
    Simulator._create_vehicles 1 accepting (fun _ => tt) first_choice largest
      10 ten_requested = Simulator.Finished s'
    /\ Simulator.vehicle_count s' = 0%Z
    /\ Simulator.placed s' = 10%Z.
Proof.
  pose proof (create_vehicles_accounts 1 accepting (fun _ => tt) first_choice
                largest 10 ten_requested) as H.
  cbv zeta in H.
  destruct H as (_ & _ & Hfin & Hacc & _).
  - intros a b g Hab. simpl. lia.
  - simpl. lia.
  - reflexivity.
  - destruct Hacc as [s' Hs'].
    + reflexivity.
    + discriminate.
    + simpl. lia.
    + exists s'. split; [exact Hs'|]. apply Hfin. exact Hs'.
Defined.

(** ** Vehicles as the constructor and [update] make them *)

Lemma leave_street_decel (v : Vehicle.t) :
  Vehicle.max_decel (Vehicle.state_of (Vehicle.leave_street v))
  = Vehicle.max_decel v.
Proof.
  unfold Vehicle.leave_street.
  destruct (Vehicle.intersections_map v !! _) as [inter|]; [|reflexivity].
  destruct (negb _); [reflexivity|].
  cbv zeta. destruct (_ >=? _)%Z; [reflexivity|].
  destruct (py_getitem _ _) as [e|next_st_id]; [reflexivity|].
  destruct (py_dict_get _ _) as [e|next_st]; reflexivity.
Qed.

Lemma update_kinematics (dt : R) (leader : option Vehicle.t) (v : Vehicle.t) :
  0 <= Vehicle.speed v ->
  0 <= Vehicle.speed (Vehicle.state_of (Vehicle.update dt leader v))
  /\ Vehicle.max_decel (Vehicle.state_of (Vehicle.update dt leader v))
     = Vehicle.max_decel v.
Proof.
  intros Hs. unfold Vehicle.update.
  destruct (Vehicle.done v); [split; [exact Hs | reflexivity]|].
  destruct (Vehicle._next_turn_direction v) as [e|td];
    [split; [exact Hs | reflexivity]|].
  destruct (Vehicle.lane_change v td) as [e|v1] eqn:Hlc;
    [split; [exact Hs | reflexivity]|].
  apply lane_change_frame in Hlc.
  assert (Hs1 : Vehicle.speed v1 = Vehicle.speed v) by (rewrite Hlc; reflexivity).
  assert (Hd1 : Vehicle.max_decel v1 = Vehicle.max_decel v)
    by (rewrite Hlc; reflexivity).
  cbv zeta. destruct (Rgeb _ _).
  - rewrite leave_street_decel. split; [|exact Hd1].
    destruct (leave_street_speed v1) as [-> | ->]; lra.
  - simpl. split; [apply new_speed_nonneg | exact Hd1].
Qed.

(** From construction on, the speed is non-negative and the maximal
    deceleration is 4. *)
Lemma run_kinematics (vehicle_id : Z) (profile : string) (st : Street.t)
    (lane : Z) (route : list Z) (streets : gmap Z Street.t)
    (lights : gmap string Intersection.t) (v : Vehicle.t)
    (calls : list (R * option Vehicle.t)) :
  Vehicle.__init__ vehicle_id profile st lane route streets lights = inr v ->
  0 <= Vehicle.speed (run calls v) /\ Vehicle.max_decel (run calls v) = 4.
Proof.
  intros Hinit.
  assert (Hv : 0 <= Vehicle.speed v /\ Vehicle.max_decel v = 4).
  { unfold Vehicle.__init__ in Hinit.
    destruct (profile_lookup VEHICLE_PROFILES profile) as [e|[sf rt]];
      [discriminate|].
    injection Hinit as <-. simpl. split; lra. }
  clear Hinit. revert v Hv.
  induction calls as [|[dt leader] calls IH]; intros v [Hs Hd]; [split; assumption|].
  simpl. apply IH.
  destruct (update_kinematics dt leader v Hs) as [Hs' Hd'].
  split; [exact Hs' | rewrite Hd'; exact Hd].
Qed.

(** ** Updates that do not raise *)

Lemma py_getitem_in_range {A : Type} (l : list A) (i : Z) :
  (0 <= i < Z.of_nat (List.length l))%Z ->
  exists x, py_getitem l i = inr x /\ In x l.
Proof.
  intros Hi.
  destruct (nth_error l (Z.to_nat i)) as [x|] eqn:Hnth.
  - exists x. split; [apply py_getitem_nonneg; [lia | exact Hnth]|].
    eapply nth_error_In, Hnth.
  - apply nth_error_None in Hnth. lia.
Qed.

Lemma two_last {A : Type} (l : list A) :
  (2 <= List.length l)%nat -> exists pre c2 c1, l = pre ++ [c2; c1].
Proof.
  intros Hlen.
  destruct (exists_last (l := l)) as [l1 [c1 ->]];
    [intros ->; simpl in Hlen; lia|].
  rewrite length_app in Hlen. simpl in Hlen.
  destruct (exists_last (l := l1)) as [pre [c2 ->]];
    [intros ->; simpl in Hlen; lia|].
  exists pre, c2, c1. rewrite <- app_assoc. reflexivity.
Qed.

Lemma two_first {A : Type} (l : list A) :
  (2 <= List.length l)%nat -> exists n0 n1 rest, l = n0 :: n1 :: rest.
Proof.
  destruct l as [|n0 [|n1 rest]]; simpl; intros Hlen; try lia. eauto.
Qed.

Lemma lane_allows_turn_total (st : Street.t) (ln : Z) (td : turn) :
  street_ok st -> exists b, Vehicle._lane_allows_turn st ln td = inr b.
Proof.
  intros [_ Hdirs]. unfold Vehicle._lane_allows_turn.
  destruct (Z.ltb_spec ln 0); [eauto|].
  destruct (Z.geb_spec ln (Street.num_lanes st)); [eauto|]. simpl.
  destruct (py_getitem_in_range (Street.lane_dirs st) ln) as [ds [-> _]]; [lia|].
  simpl. eauto.
Qed.

(** On a network as the data model wants it, the classification of the turn
    and the lane change go through. *)
Lemma prepared_total (v : Vehicle.t) :
  route_ok v -> exists v1, prepared v = inr v1.
Proof.
  intros (Hri & Hcur & Hroute). unfold prepared.
  assert (Hlc : forall td, exists v1, Vehicle.lane_change v td = inr v1).
  { intros [td|]; unfold Vehicle.lane_change; cbv zeta; [|eauto].
    destruct (Rltb _ _); [|eauto].
    destruct (lane_allows_turn_total (Vehicle.current_street v)
                (Vehicle.lane_index v) td Hcur) as [b ->].
    simpl. destruct b; simpl; [eauto|].
    destruct td; repeat (destruct (_ <? _)%Z || destruct (_ >? _)%Z); eauto. }
  destruct (Z_lt_ge_dec (Vehicle.route_index v)
              (Z.of_nat (List.length (Vehicle.route_streets v)) - 1)) as [Hlt|Hge];
    cycle 1.
  - rewrite (next_turn_direction_none v Hge). exact (Hlc None).
  - destruct (py_getitem_in_range (Vehicle.route_streets v)
                (Vehicle.route_index v + 1)) as [next_id [Hid Hin]]; [lia|].
    destruct (Hroute next_id Hin) as [next_st [Hst [Hcoords _]]].
    destruct Hcur as [Hccoords _].
    destruct (two_last _ Hccoords) as (pre & c2 & c1 & Hc).
    destruct (two_first _ Hcoords) as (n0 & n1 & rest & Hn).
    rewrite (next_turn_direction_eval v next_id next_st pre rest c2 c1 n0 n1);
      try assumption; try lia.
    exact (Hlc _).
Qed.

(** ** Exceptions *)

(** Once the turn ahead has been classified, the street that the
    transition looks up is known to be there. *)
Lemma leave_street_returns (v v1 : Vehicle.t) (td : option turn) :
  Vehicle._next_turn_direction v = inr td ->
  v1 = Vehicle.set_lane_index (Vehicle.lane_index v1) v ->
  exists v', Vehicle.leave_street v1 = Vehicle.Returned v'.
Proof.
  intros Hturn Hv1. unfold Vehicle.leave_street.
  destruct (Vehicle.intersections_map v1 !! _) as [inter|]; [|eauto].
  destruct (negb _); [eauto|]. cbv zeta.
  replace (Vehicle.route_index
             (Vehicle.set_route_index (Vehicle.route_index v1 + 1) v1))
    with (Vehicle.route_index v + 1)%Z by (rewrite Hv1; reflexivity).
  replace (Vehicle.route_streets
             (Vehicle.set_route_index (Vehicle.route_index v1 + 1) v1))
    with (Vehicle.route_streets v) by (rewrite Hv1; reflexivity).
  replace (Vehicle.streets_map
             (Vehicle.set_route_index (Vehicle.route_index v1 + 1) v1))
    with (Vehicle.streets_map v) by (rewrite Hv1; reflexivity).
  destruct (Z.geb_spec (Vehicle.route_index v + 1)
              (Z.of_nat (List.length (Vehicle.route_streets v)))); [eauto|].
  unfold Vehicle._next_turn_direction in Hturn.
  destruct (Z.geb_spec (Vehicle.route_index v)
              (Z.of_nat (List.length (Vehicle.route_streets v)) - 1)); [lia|].
  destruct (py_getitem (Vehicle.route_streets v) (Vehicle.route_index v + 1))
    as [e|next_id]; [discriminate|].
  simpl in Hturn.
  destruct (py_dict_get (Vehicle.streets_map v) next_id) as [e|next_st];
    [discriminate|].
  eauto.
Qed.

(** X1. An [update] that raises leaves the vehicle as it was: every
    exception comes from the classification of the turn or from the lane
    check, before the first assignment, and the transition to the next
    street cannot raise once the classification has gone through. *)
Theorem update_raise_untouched (dt : R) (leader : option Vehicle.t)
    (v v' : Vehicle.t) (e : exn) :
  Vehicle.update dt leader v = Vehicle.Raised e v' -> v' = v.
Proof.
  unfold Vehicle.update.
  destruct (Vehicle.done v); [discriminate|].
  destruct (Vehicle._next_turn_direction v) as [e0|td] eqn:Hturn;
    [intros H; injection H as _ <-; reflexivity|].
  destruct (Vehicle.lane_change v td) as [e0|v1] eqn:Hlc;
    [intros H; injection H as _ <-; reflexivity|].
  apply lane_change_frame in Hlc. cbv zeta.
  destruct (Rgeb _ _); [|discriminate].
  destruct (leave_street_returns v v1 td Hturn Hlc) as [v2 ->]. discriminate.
Qed.

Lemma update_lost : Vehicle.update 1 None car_lost = Vehicle.Raised KeyError car_lost.
Proof. reflexivity. Qed.

Lemma update_raise_untouched_witness :
  Vehicle.update 1 None car_lost = Vehicle.Raised KeyError car_lost
  /\ car_lost = car_lost.
Proof.
  split; [exact update_lost|].
  apply (update_raise_untouched 1 None car_lost car_lost KeyError).
  exact update_lost.
Defined.

(** X2. For a vehicle whose route cursor is not negative, whose route names
    streets of the network only, and whose streets have polylines of two
    points or more and turn lists for all their lanes, [update] returns
    without raising. *)
Theorem update_no_raise (dt : R) (leader : option Vehicle.t) (v : Vehicle.t) :
  route_ok v -> exists v', Vehicle.update dt leader v = Vehicle.Returned v'.
Proof.
  intros Hok. destruct (Vehicle.done v) eqn:Hdone.
  - exists v. unfold Vehicle.update. rewrite Hdone. reflexivity.
  - destruct (prepared_total v Hok) as [v1 Hprep].
    rewrite (update_steps dt leader v v1 Hdone Hprep).
    destruct (Rgeb _ _); [|eauto].
    unfold prepared in Hprep.
    destruct (Vehicle._next_turn_direction v) as [e|td] eqn:Hturn;
      [discriminate|].
    simpl in Hprep. apply lane_change_frame in Hprep.
    exact (leave_street_returns v v1 td Hturn Hprep).
Qed.

Lemma network_ok (id : Z) :
  In id [1%Z; 2%Z] -> exists st, network !! id = Some st /\ street_ok st.
Proof.
  intros [<- | [<- | []]].
  - exists main_street. split; [reflexivity|]. split; simpl; lia.
  - exists side_street. split; [reflexivity|]. split; simpl; lia.
Qed.

Lemma update_no_raise_witness :
  exists v', Vehicle.update 1 None car_left_green = Vehicle.Returned v'.
Proof.
  apply (update_no_raise 1 None car_left_green).
  split; [simpl; lia|]. split; [split; simpl; lia|]. exact network_ok.
Defined.

Lemma py_getitem_error {A : Type} (l : list A) (i : Z) (e : exn) :
  py_getitem l i = inl e -> e = IndexError.
Proof.
  unfold py_getitem. destruct (_ || _)%Z; [congruence|].
  destruct (nth_error l _); congruence.
Qed.

Lemma py_getitem_out_of_range {A : Type} (l : list A) (i : Z) :
  (i < - Z.of_nat (List.length l) \/ Z.of_nat (List.length l) <= i)%Z ->
  py_getitem l i = inl IndexError.
Proof.
  intros Hi. unfold py_getitem.
  destruct (Z.ltb_spec i 0).
  - destruct (Z.ltb_spec (i + Z.of_nat (List.length l)) 0); [reflexivity | lia].
  - destruct (Z.ltb_spec i 0); [lia|].
    destruct (Z.leb_spec (Z.of_nat (List.length l)) i); [reflexivity | lia].
Qed.

Lemma turn_between_short (cur next : Street.t) :
  (List.length (Street.coords cur) < 2
   \/ List.length (Street.coords next) < 2)%nat ->
  Vehicle.turn_between cur next = inl IndexError.
Proof.
  intros Hshort. unfold Vehicle.turn_between. cbv zeta.
  destruct (py_getitem (Street.coords cur) (-1)) as [e|c1] eqn:H1;
    [apply py_getitem_error in H1; subst; reflexivity|].
  destruct (py_getitem (Street.coords cur) (-2)) as [e|c2] eqn:H2;
    [apply py_getitem_error in H2; subst; reflexivity|].
  destruct (py_getitem (Street.coords next) 1) as [e|n1] eqn:H3;
    [apply py_getitem_error in H3; subst; reflexivity|].
  exfalso. destruct Hshort as [Hc | Hn].
  - rewrite py_getitem_out_of_range in H2 by lia. discriminate.
  - rewrite py_getitem_out_of_range in H3 by lia. discriminate.
Qed.

(** X3. A vehicle that is not terminal and has a further street on its
    route cannot be updated when that street is unknown or a polyline is
    too short: [update] raises [KeyError] when the network lacks the next
    street of the route, and [IndexError] when the polyline of the current
    or of the next street has fewer than two points. The vehicle is left as
    it was. *)
Theorem update_bad_network (dt : R) (leader : option Vehicle.t)
    (v : Vehicle.t) (next_id : Z) :
  Vehicle.done v = false ->
  (Vehicle.route_index v
   < Z.of_nat (List.length (Vehicle.route_streets v)) - 1)%Z ->
  py_getitem (Vehicle.route_streets v) (Vehicle.route_index v + 1) = inr next_id ->
  (Vehicle.streets_map v !! next_id = None ->
   Vehicle.update dt leader v = Vehicle.Raised KeyError v)
  /\ (forall next_st,
        Vehicle.streets_map v !! next_id = Some next_st ->
        (List.length (Street.coords (Vehicle.current_street v)) < 2
         \/ List.length (Street.coords next_st) < 2)%nat ->
        Vehicle.update dt leader v = Vehicle.Raised IndexError v).
Proof.
  intros Hdone Hri Hid.
  assert (Hturn : Vehicle._next_turn_direction v
                  = bind_exn (py_dict_get (Vehicle.streets_map v) next_id)
                      (fun next_st =>
                         bind_exn (Vehicle.turn_between (Vehicle.current_street v) next_st)
                           (fun d => inr (Some d)))).
  { unfold Vehicle._next_turn_direction.
    destruct (Z.geb_spec (Vehicle.route_index v)
                (Z.of_nat (List.length (Vehicle.route_streets v)) - 1)); [lia|].
    rewrite Hid. reflexivity. }
  split.
  - intros Hnone. apply update_raises; [exact Hdone|].
    unfold prepared. rewrite Hturn. unfold py_dict_get. rewrite Hnone.
    reflexivity.
  - intros next_st Hsome Hshort. apply update_raises; [exact Hdone|].
    unfold prepared. rewrite Hturn. unfold py_dict_get. rewrite Hsome. simpl.
    rewrite (turn_between_short _ _ Hshort). reflexivity.
Qed.

Lemma update_bad_network_witness :
  Vehicle.update 1 None car_lost = Vehicle.Raised KeyError car_lost.
Proof.
  apply (proj1 (update_bad_network 1 None car_lost 9%Z
                  ltac:(reflexivity) ltac:(simpl; lia) ltac:(reflexivity))).
  reflexivity.
Defined.

(** ** The ways a tick can end *)

(** After [leave_street] the vehicle waits at the end of the street, is
    terminal, has lost its way, or is at the start of the next street. *)
Lemma leave_street_cases (v : Vehicle.t) :
  let v' := Vehicle.state_of (Vehicle.leave_street v) in
  v' = Vehicle.set_position_s (Street.length (Vehicle.current_street v))
         (Vehicle.set_speed 0.0 v)
  \/ v' = Vehicle.set_done true v
  \/ v' = Vehicle.set_done true
            (Vehicle.set_route_index (Vehicle.route_index v + 1) v)
  \/ v' = Vehicle.set_route_index (Vehicle.route_index v + 1) v
  \/ exists next_id next_st,
       Vehicle.streets_map v !! next_id = Some next_st
       /\ v' = Vehicle.set_base_speed_limit
                 (Street.speed_limit next_st * Vehicle.speed_factor v)
                 (Vehicle.set_speed 0.0
                    (Vehicle.set_position_s 0.0
                       (Vehicle.set_lane_index
                          (Z.min (Vehicle.lane_index v)
                             (Street.num_lanes next_st - 1))
                          (Vehicle.set_current_street next_st
                             (Vehicle.set_route_index
                                (Vehicle.route_index v + 1) v))))).
Proof.
  unfold Vehicle.leave_street.
  destruct (Vehicle.intersections_map v !! _) as [inter|]; [|auto].
  destruct (negb _); [auto|]. cbv zeta.
  destruct (_ >=? _)%Z; [auto|].
  destruct (py_getitem _ _) as [e|next_id]; [auto 6|].
  unfold py_dict_get. simpl Vehicle.streets_map.
  destruct (Vehicle.streets_map v !! next_id) as [next_st|] eqn:Hst; [|auto 6].
  do 4 right. exists next_id, next_st. split; [exact Hst | reflexivity].
Qed.

(** After [update] the vehicle is as before, or it has made its lane
    change and then left the street or moved on along it. *)
Lemma update_cases (dt : R) (leader : option Vehicle.t) (v : Vehicle.t) :
  let v' := Vehicle.state_of (Vehicle.update dt leader v) in
  v' = v
  \/ exists v1,
       Vehicle.done v = false
       /\ v1 = Vehicle.set_lane_index (Vehicle.lane_index v1) v
       /\ prepared v = inr v1
       /\ ((tick_pos dt leader v v1 >= Street.length (Vehicle.current_street v1)
            /\ v' = Vehicle.state_of (Vehicle.leave_street v1))
           \/ (tick_pos dt leader v v1 < Street.length (Vehicle.current_street v1)
               /\ v' = Vehicle.set_position_s (tick_pos dt leader v v1)
                         (Vehicle.set_speed (tick_speed dt leader v v1) v1))).
Proof.
  cbv zeta. destruct (Vehicle.done v) eqn:Hdone.
  - left. unfold Vehicle.update. rewrite Hdone. reflexivity.
  - destruct (prepared v) as [e|v1] eqn:Hprep.
    + left. rewrite (update_raises dt leader v e Hdone Hprep). reflexivity.
    + right. exists v1. rewrite (update_steps dt leader v v1 Hdone Hprep).
      split; [reflexivity|]. split.
      { unfold prepared in Hprep.
        destruct (Vehicle._next_turn_direction v) as [e|td]; [discriminate|].
        simpl in Hprep. apply lane_change_frame in Hprep. exact Hprep. }
      split; [reflexivity|].
      destruct (Rgeb _ _) eqn:Hend.
      * left. split; [apply Rgeb_spec, Hend | reflexivity].
      * right. split; [|reflexivity].
        unfold Rgeb in Hend. destruct (Rge_dec _ _); [discriminate | lra].
Qed.

(** ** What [update] leaves alone *)

(** X4. [update] never writes the identity, the profile and its two
    factors, the route, the two maps, or the maximal acceleration and
    deceleration; it moves the route cursor forward by one or not at all;
    and it never clears the terminal flag. *)
Theorem update_frame (dt : R) (leader : option Vehicle.t) (v : Vehicle.t) :
  same_setup v (Vehicle.state_of (Vehicle.update dt leader v))
  /\ (Vehicle.route_index (Vehicle.state_of (Vehicle.update dt leader v))
      = Vehicle.route_index v
      \/ Vehicle.route_index (Vehicle.state_of (Vehicle.update dt leader v))
         = (Vehicle.route_index v + 1)%Z)
  /\ (Vehicle.done v = true ->
      Vehicle.done (Vehicle.state_of (Vehicle.update dt leader v)) = true).
Proof.
  assert (Hrefl : same_setup v v) by (repeat split).
  destruct (update_cases dt leader v) as [-> | (v1 & Hdone & Hv1 & _ & Hend)].
  - split; [exact Hrefl|]. split; [left; reflexivity | auto].
  - assert (Hs1 : same_setup v v1) by (rewrite Hv1; repeat split).
    assert (Hr1 : Vehicle.route_index v1 = Vehicle.route_index v)
      by (rewrite Hv1; reflexivity).
    split; [|split; [|rewrite Hdone; discriminate]].
    + destruct Hend as [[_ ->] | [_ ->]]; [|exact Hs1].
      destruct Hs1 as (? & ? & ? & ? & ? & ? & ? & ? & ?).
      destruct (leave_street_cases v1)
        as [-> | [-> | [-> | [-> | (next_id & next_st & _ & ->)]]]];
        repeat split; assumption.
    + destruct Hend as [[_ ->] | [_ ->]]; [|left; exact Hr1].
      destruct (leave_street_cases v1)
        as [-> | [-> | [-> | [-> | (next_id & next_st & _ & ->)]]]];
        simpl; rewrite Hr1; auto.
Qed.

Lemma update_frame_witness :
  Vehicle.done (Vehicle.state_of (Vehicle.update 1 None car_done)) = true.
Proof.
  apply (proj2 (proj2 (update_frame 1 None car_done))). reflexivity.
Defined.

Lemma update_done (dt : R) (leader : option Vehicle.t) (v : Vehicle.t) :
  Vehicle.done v = true -> Vehicle.update dt leader v = Vehicle.Returned v.
Proof. intros H. unfold Vehicle.update. rewrite H. reflexivity. Qed.

(** X5. A terminal vehicle is frozen: no sequence of calls of [update],
    whatever their [dt] and leaders, changes any of its attributes. *)
Theorem run_done_frozen (calls : list (R * option Vehicle.t)) (v : Vehicle.t) :
  Vehicle.done v = true -> run calls v = v.
Proof.
  intros Hdone. induction calls as [|[dt leader] calls IH]; [reflexivity|].
  simpl. rewrite (update_done dt leader v Hdone). exact IH.
Qed.

Lemma run_done_frozen_witness :
  run [(1, None); (2, Some car_ahead)] car_done = car_done.
Proof.
  apply (run_done_frozen [(1, None); (2, Some car_ahead)] car_done).
  reflexivity.
Defined.

(** ** Lanes, speed and position stay in range *)

Lemma lane_change_in_range (v v1 : Vehicle.t) (td : option turn) :
  Vehicle.lane_change v td = inr v1 -> lane_in_range v -> lane_in_range v1.
Proof.
  unfold Vehicle.lane_change, lane_in_range. intros H Hv.
  destruct td as [td|]; [|injection H as <-; exact Hv].
  destruct (Rltb _ _); [|injection H as <-; exact Hv].
  destruct (Vehicle._lane_allows_turn _ _ td) as [e|allowed]; simpl in H;
    [discriminate|].
  destruct allowed; simpl in H; [injection H as <-; exact Hv|].
  destruct td.
  - destruct (Z.ltb_spec (Vehicle.lane_index v)
                (Street.num_lanes (Vehicle.current_street v) - 1));
      injection H as <-; simpl; lia.
  - injection H as <-; exact Hv.
  - destruct (Z.gtb_spec (Vehicle.lane_index v) 0);
      injection H as <-; simpl; lia.
Qed.

Lemma prepared_lane_change (v v1 : Vehicle.t) :
  prepared v = inr v1 ->
  exists td, Vehicle._next_turn_direction v = inr td
             /\ Vehicle.lane_change v td = inr v1.
Proof.
  unfold prepared. intros H.
  destruct (Vehicle._next_turn_direction v) as [e|td]; [discriminate|].
  exists td. split; [reflexivity | exact H].
Qed.

(** X6. In a network whose streets all have at least one lane, [update]
    keeps the lane index within the lanes of the street the vehicle is on:
    the lane change stops at the outermost lanes, and the transition clamps
    the index to the lanes of the next street. *)
Theorem update_lane_in_range (dt : R) (leader : option Vehicle.t) (v : Vehicle.t) :
  (forall k st, Vehicle.streets_map v !! k = Some st ->
                (1 <= Street.num_lanes st)%Z) ->
  lane_in_range v ->
  lane_in_range (Vehicle.state_of (Vehicle.update dt leader v)).
Proof.
  intros Hlanes Hv.
  destruct (update_cases dt leader v) as [-> | (v1 & _ & Hv1 & Hprep & Hend)];
    [exact Hv|].
  destruct (prepared_lane_change v v1 Hprep) as (td & _ & Hlc).
  pose proof (lane_change_in_range v v1 td Hlc Hv) as Hr1.
  destruct Hend as [[_ ->] | [_ ->]]; [|exact Hr1].
  destruct (leave_street_cases v1)
    as [-> | [-> | [-> | [-> | (next_id & next_st & Hst & ->)]]]];
    try exact Hr1.
  assert (Hn : (1 <= Street.num_lanes next_st)%Z).
  { apply (Hlanes next_id). rewrite Hv1 in Hst. exact Hst. }
  unfold lane_in_range in *. simpl. lia.
Qed.

Lemma network_lanes (k : Z) (st : Street.t) :
  network !! k = Some st -> (1 <= Street.num_lanes st)%Z.
Proof.
  unfold network. intros H.
  repeat (apply lookup_insert_Some in H as [[_ <-]|[_ H]]; [simpl; lia|]).
  apply lookup_singleton_Some in H as [_ <-]. simpl; lia.
Qed.

Lemma update_lane_in_range_witness :
  lane_in_range (Vehicle.state_of (Vehicle.update 1 None car_through)).
Proof.
  apply (update_lane_in_range 1 None car_through).
  - exact network_lanes.
  - unfold lane_in_range. simpl. lia.
Defined.

(** X7. A vehicle whose cached limit agrees with its street and whose speed
    is within the street's limit times its speed factor is still within
    that bound, for the street it is then on, after [update]. Speed limits
    and the speed factor are not negative. *)
Theorem update_speed_capped (dt : R) (leader : option Vehicle.t) (v : Vehicle.t) :
  0 <= Vehicle.speed_factor v ->
  0 <= Street.speed_limit (Vehicle.current_street v) ->
  (forall k st, Vehicle.streets_map v !! k = Some st ->
                0 <= Street.speed_limit st) ->
  limit_cached v ->
  speed_capped v ->
  speed_capped (Vehicle.state_of (Vehicle.update dt leader v)).
Proof.
  intros Hsf Hcur Hlim Hcache Hv.
  destruct (update_cases dt leader v) as [-> | (v1 & _ & Hv1 & _ & Hend)];
    [exact Hv|].
  assert (Hc1 : speed_capped v1) by (rewrite Hv1; exact Hv).
  assert (Hcache1 : limit_cached v1) by (rewrite Hv1; exact Hcache).
  assert (Hpos : 0 <= Street.speed_limit (Vehicle.current_street v1)
                      * Vehicle.speed_factor v1).
  { rewrite Hv1. simpl. apply Rmult_le_pos; assumption. }
  destruct Hend as [[_ ->] | [_ ->]].
  - destruct (leave_street_cases v1)
      as [-> | [-> | [-> | [-> | (next_id & next_st & Hst & ->)]]]];
      try exact Hc1.
    + unfold speed_capped in *. simpl. lra.
    + unfold speed_capped. simpl.
      assert (0 <= Street.speed_limit next_st)
        by (apply (Hlim next_id); rewrite Hv1 in Hst; exact Hst).
      assert (0 <= Street.speed_limit next_st * Vehicle.speed_factor v1)
        by (apply Rmult_le_pos; [assumption | rewrite Hv1; exact Hsf]).
      lra.
  - unfold speed_capped. simpl. unfold tick_speed.
    rewrite <- (final_limit_cached v1 Hcache1).
    apply new_speed_le_limit. rewrite (final_limit_cached v1 Hcache1). exact Hpos.
Qed.

Lemma network_limits (k : Z) (st : Street.t) :
  network !! k = Some st -> 0 <= Street.speed_limit st.
Proof.
  unfold network. intros H.
  repeat (apply lookup_insert_Some in H as [[_ <-]|[_ H]]; [simpl; lra|]).
  apply lookup_singleton_Some in H as [_ <-]. simpl; lra.
Qed.

Lemma update_speed_capped_witness :
  speed_capped (Vehicle.state_of (Vehicle.update 1 None car_cruising)).
Proof.
  apply (update_speed_capped 1 None car_cruising).
  - simpl. lra.
  - simpl. lra.
  - exact network_limits.
  - unfold limit_cached. simpl. lra.
  - unfold speed_capped. simpl. lra.
Defined.

Lemma leader_accel_values (v : Vehicle.t) (leader : option Vehicle.t) :
  Vehicle.leader_accel v leader = Vehicle.max_accel v
  \/ Vehicle.leader_accel v leader = - Vehicle.max_decel v.
Proof.
  unfold Vehicle.leader_accel. cbv zeta. destruct leader as [l|]; [|auto].
  destruct (_ =? _)%Z; [|auto]. destruct (_ =? _)%Z; [|auto].
  destruct (Rltb _ _); auto.
Qed.

Lemma signal_accel_values (v : Vehicle.t) (a : R) :
  Vehicle.signal_accel v a = a
  \/ Vehicle.signal_accel v a = - Vehicle.max_decel v.
Proof.
  unfold Vehicle.signal_accel. cbv zeta. destruct (Rltb _ _); [|auto].
  destruct (Vehicle.intersections_map v !! _); [|auto].
  destruct (negb _); auto.
Qed.

(** X8. [update] never raises the speed by more than the maximal
    acceleration allows in the time [dt]: the speed after the call is at
    most the speed before it plus [max_accel * dt]. The speed, the maximal
    acceleration and the maximal deceleration are not negative. *)
Theorem update_accel_bounded (dt : R) (leader : option Vehicle.t) (v : Vehicle.t) :
  0 <= dt ->
  0 <= Vehicle.speed v ->
  0 <= Vehicle.max_accel v ->
  0 <= Vehicle.max_decel v ->
  Vehicle.speed (Vehicle.state_of (Vehicle.update dt leader v))
  <= Vehicle.speed v + Vehicle.max_accel v * dt.
Proof.
  intros Hdt Hs Hacc Hdec.
  assert (Hstep : 0 <= Vehicle.max_accel v * dt) by (apply Rmult_le_pos; lra).
  destruct (update_cases dt leader v) as [-> | (v1 & _ & Hv1 & _ & Hend)];
    [lra|].
  assert (Hs1 : Vehicle.speed v1 = Vehicle.speed v) by (rewrite Hv1; reflexivity).
  assert (Hd1 : Vehicle.max_decel v1 = Vehicle.max_decel v)
    by (rewrite Hv1; reflexivity).
  destruct Hend as [[_ ->] | [_ ->]].
  - destruct (leave_street_speed v1) as [-> | ->]; lra.
  - simpl. unfold tick_speed.
    set (a := Vehicle.signal_accel v1 (Vehicle.leader_accel v leader)).
    assert (Ha : a <= Vehicle.max_accel v).
    { unfold a.
      destruct (signal_accel_values v1 (Vehicle.leader_accel v leader))
        as [-> | ->]; [|rewrite Hd1; lra].
      destruct (leader_accel_values v leader) as [-> | ->]; lra. }
    assert (Hadt : a * dt <= Vehicle.max_accel v * dt)
      by (apply Rmult_le_compat_r; assumption).
    unfold Vehicle.new_speed. cbv zeta. rewrite Hs1.
    generalize (Vehicle.final_limit v1). intros lim. rcases; lra.
Qed.

Lemma update_accel_bounded_witness :
  Vehicle.speed (Vehicle.state_of (Vehicle.update 1 None car_cruising))
  <= 5 + 2 * 1.
Proof.
  apply (update_accel_bounded 1 None car_cruising); simpl; lra.
Defined.

(** X9. A vehicle never moves backwards along its street: after [update]
    its position is at least what it was, unless the vehicle has moved on
    to position 0 of the next street of its route. The position before the
    call is within the street and [dt] is not negative. *)
Theorem update_never_backwards (dt : R) (leader : option Vehicle.t) (v : Vehicle.t) :
  0 <= dt ->
  Vehicle.position_s v <= Street.length (Vehicle.current_street v) ->
  Vehicle.position_s v
  <= Vehicle.position_s (Vehicle.state_of (Vehicle.update dt leader v))
  \/ (Vehicle.position_s (Vehicle.state_of (Vehicle.update dt leader v)) = 0
      /\ Vehicle.route_index (Vehicle.state_of (Vehicle.update dt leader v))
         = (Vehicle.route_index v + 1)%Z
      /\ Vehicle.done (Vehicle.state_of (Vehicle.update dt leader v)) = false).
Proof.
  intros Hdt Hp.
  destruct (update_cases dt leader v) as [-> | (v1 & Hdone & Hv1 & _ & Hend)];
    [left; lra|].
  assert (Hp1 : Vehicle.position_s v1 = Vehicle.position_s v)
    by (rewrite Hv1; reflexivity).
  assert (Hc1 : Vehicle.current_street v1 = Vehicle.current_street v)
    by (rewrite Hv1; reflexivity).
  destruct Hend as [[_ ->] | [_ ->]].
  - destruct (leave_street_cases v1)
      as [-> | [-> | [-> | [-> | (next_id & next_st & _ & ->)]]]];
      simpl; rewrite ?Hc1, ?Hp1; try (left; lra).
    right. rewrite Hv1. simpl. repeat split; [lra | exact Hdone].
  - left. simpl. unfold tick_pos, Vehicle.new_pos. rewrite Hp1.
    pose proof (new_speed_nonneg dt v1
                  (Vehicle.signal_accel v1 (Vehicle.leader_accel v leader))) as Hns.
    unfold tick_speed.
    assert (0 <= Vehicle.new_speed dt v1
                   (Vehicle.signal_accel v1 (Vehicle.leader_accel v leader)) * dt)
      by (apply Rmult_le_pos; assumption).
    lra.
Qed.

Lemma update_never_backwards_witness :
  95 <= Vehicle.position_s (Vehicle.state_of (Vehicle.update 1 None car_left_red))
  \/ (Vehicle.position_s (Vehicle.state_of (Vehicle.update 1 None car_left_red)) = 0
      /\ Vehicle.route_index (Vehicle.state_of (Vehicle.update 1 None car_left_red))
         = (0 + 1)%Z
      /\ Vehicle.done (Vehicle.state_of (Vehicle.update 1 None car_left_red)) = false).
Proof.
  apply (update_never_backwards 1 None car_left_red); simpl; lra.
Defined.

(** ** At the end of the street *)

(** A vehicle that stands at the end of its street never moves along it:
    whatever speed the tick computes, the update leaves the street. *)
Lemma update_at_end (dt : R) (leader : option Vehicle.t) (v v1 : Vehicle.t) :
  Vehicle.done v = false ->
  0 <= dt ->
  prepared v = inr v1 ->
  Vehicle.position_s v = Street.length (Vehicle.current_street v) ->
  Vehicle.update dt leader v = Vehicle.leave_street v1.
Proof.
  intros Hdone Hdt Hprep Hpos.
  rewrite (update_steps dt leader v v1 Hdone Hprep).
  destruct (prepared_lane_change v v1 Hprep) as (td & _ & Hlc).
  apply lane_change_frame in Hlc.
  rewrite Rgeb_true; [reflexivity|].
  unfold tick_pos, Vehicle.new_pos.
  pose proof (new_speed_nonneg dt v1
                (Vehicle.signal_accel v1 (Vehicle.leader_accel v leader))) as Hns.
  unfold tick_speed.
  assert (0 <= Vehicle.new_speed dt v1
                 (Vehicle.signal_accel v1 (Vehicle.leader_accel v leader)) * dt)
    by (apply Rmult_le_pos; assumption).
  replace (Vehicle.position_s v1) with (Vehicle.position_s v)
    by (rewrite Hlc; reflexivity).
  replace (Vehicle.current_street v1) with (Vehicle.current_street v)
    by (rewrite Hlc; reflexivity).
  lra.
Qed.

(** X10. Waiting at a red light is stable. A vehicle that stands at the end
    of its street with speed 0, in a lane that needs no change, and that is
    denied admission, comes out of [update] exactly as it went in, so the
    next tick asks again. *)
Theorem waiting_is_stable (dt : R) (leader : option Vehicle.t) (v : Vehicle.t) :
  Vehicle.done v = false ->
  0 <= dt ->
  prepared v = inr v ->
  Vehicle.position_s v = Street.length (Vehicle.current_street v) ->
  Vehicle.speed v = 0 ->
  admission v = Some false ->
  Vehicle.update dt leader v = Vehicle.Returned v.
Proof.
  intros Hdone Hdt Hprep Hpos Hspeed Hdeny.
  rewrite (update_at_end dt leader v v Hdone Hdt Hprep Hpos).
  rewrite (leave_street_denied v Hdeny). f_equal.
  clear Hprep Hdeny Hdone. destruct v. simpl in *.
  rewrite <- Hpos. unfold Vehicle.set_position_s, Vehicle.set_speed. simpl.
  f_equal. lra.
Qed.

Lemma prepared_waiting : prepared car_waiting = inr car_waiting.
Proof.
  unfold prepared, car_waiting. rewrite turn_main_side. simpl.
  unfold Vehicle.lane_change. simpl. rdecide. reflexivity.
Qed.

Lemma waiting_is_stable_witness :
  Vehicle.update 1 None car_waiting = Vehicle.Returned car_waiting.
Proof.
  apply (waiting_is_stable 1 None car_waiting).
  - reflexivity.
  - lra.
  - exact prepared_waiting.
  - reflexivity.
  - reflexivity.
  - reflexivity.
Defined.

(** X11. A vehicle whose update reaches the end of a street that has no
    intersection in the map, or that is admitted while its route has no
    further street, becomes terminal where it is: the position and the speed
    it had before the tick are kept, neither the position computed for the
    tick nor the end of the street is written. *)
Theorem end_of_route_terminal (dt : R) (leader : option Vehicle.t)
    (v v1 : Vehicle.t) :
  Vehicle.done v = false ->
  prepared v = inr v1 ->
  tick_pos dt leader v v1 >= Street.length (Vehicle.current_street v1) ->
  admission v1 = None
  \/ (admission v1 = Some true
      /\ (Vehicle.route_index v + 1
          >= Z.of_nat (List.length (Vehicle.route_streets v)))%Z) ->
  exists v',
    Vehicle.update dt leader v = Vehicle.Returned v'
    /\ Vehicle.done v' = true
    /\ Vehicle.position_s v' = Vehicle.position_s v
    /\ Vehicle.speed v' = Vehicle.speed v
    /\ Vehicle.current_street v' = Vehicle.current_street v
    /\ Vehicle.lane_index v' = Vehicle.lane_index v1.
Proof.
  intros Hdone Hprep Hend Hcase.
  rewrite (update_steps dt leader v v1 Hdone Hprep).
  rewrite Rgeb_true by exact Hend.
  destruct (prepared_lane_change v v1 Hprep) as (td & _ & Hlc).
  apply lane_change_frame in Hlc.
  destruct Hcase as [Hnone | [Hgrant Hri]].
  - rewrite (leave_street_exit v1 Hnone). eexists. split; [reflexivity|].
    rewrite Hlc. simpl. repeat split.
  - rewrite (leave_street_route_end v1 Hgrant)
      by (rewrite Hlc; simpl; exact Hri).
    eexists. split; [reflexivity|]. rewrite Hlc. simpl. repeat split.
Qed.

Lemma green_n3 : green_lights !! "n3"%string = None.
Proof. reflexivity. Qed.

Lemma tick_pos_exit : tick_pos 1 None car_exit car_exit = 45 + 10 * 1 * 1.
Proof.
  unfold tick_pos, tick_speed, Vehicle.new_pos, Vehicle.new_speed,
    Vehicle.signal_accel, Vehicle.leader_accel, Vehicle.final_limit.
  simpl. rdecide. rewrite green_n3.
  unfold py_max, py_min, Rgtb. rdecide. reflexivity.
Qed.

Lemma end_of_route_terminal_witness :
  exists v',
    Vehicle.update 1 None car_exit = Vehicle.Returned v'
    /\ Vehicle.done v' = true
    /\ Vehicle.position_s v' = 45
    /\ Vehicle.speed v' = 10
    /\ Vehicle.current_street v' = ahead_street
    /\ Vehicle.lane_index v' = 0%Z.
Proof.
  apply (end_of_route_terminal 1 None car_exit car_exit).
  - reflexivity.
  - reflexivity.
  - rewrite tick_pos_exit. simpl. lra.
  - left. reflexivity.
Defined.

(** ** The leader *)

(** X12. A leader counts only when it is on the same street, in the same
    lane, and closer than the headway [speed * reaction_time] plus 5: with
    any other leader [update] does what it does with no leader at all. *)
Theorem far_leader_ignored (dt : R) (l v : Vehicle.t) :
  Vehicle.current_street_id l <> Vehicle.current_street_id v
  \/ Vehicle.lane_index l <> Vehicle.lane_index v
  \/ Vehicle.speed v * Vehicle.reaction_time v
     <= Vehicle.position_s l - Vehicle.position_s v - 5 ->
  Vehicle.update dt (Some l) v = Vehicle.update dt None v.
Proof.
  intros Hfar.
  assert (Hacc : Vehicle.leader_accel v (Some l) = Vehicle.leader_accel v None).
  { unfold Vehicle.leader_accel. cbv zeta.
    destruct (Z.eqb_spec (Vehicle.current_street_id l)
                (Vehicle.current_street_id v)) as [Hst|]; [|reflexivity].
    destruct (Z.eqb_spec (Vehicle.lane_index l) (Vehicle.lane_index v))
      as [Hln|]; [|reflexivity].
    destruct Hfar as [H | [H | H]]; try contradiction.
    rewrite Rltb_false by lra. reflexivity. }
  unfold Vehicle.update. rewrite Hacc. reflexivity.
Qed.

Lemma far_leader_ignored_witness :
  Vehicle.update 1 (Some car_ahead) car_cruising
  = Vehicle.update 1 None car_cruising.
Proof.
  apply (far_leader_ignored 1 car_ahead car_cruising).
  right. right. simpl. lra.
Defined.

(** ** The turns a lane allows *)

Lemma py_in_spec (x : turn) (l : list turn) : Vehicle.py_in x l = true <-> In x l.
Proof.
  unfold Vehicle.py_in. rewrite existsb_exists. split.
  - intros (y & Hy & Heq). destruct x, y; try discriminate; exact Hy.
  - intros H. exists x. split; [exact H | destruct x; reflexivity].
Qed.

(** X13. [_lane_allows_turn] answers [False] for a lane index outside the
    lanes of the street, without looking at the turn lists; for a lane of
    the street it answers whether the turn is in that lane's list, the
    special case for "through" making no difference; and it raises
    [IndexError] when the street has no turn list for that lane. *)
Theorem lane_allows_turn_spec (st : Street.t) (ln : Z) (td : turn) :
  ((ln < 0 \/ Street.num_lanes st <= ln)%Z ->
   Vehicle._lane_allows_turn st ln td = inr false)
  /\ (forall ds,
        (0 <= ln < Street.num_lanes st)%Z ->
        py_getitem (Street.lane_dirs st) ln = inr ds ->
        Vehicle._lane_allows_turn st ln td = inr (Vehicle.py_in td ds)
        /\ (Vehicle.py_in td ds = true <-> In td ds))
  /\ ((0 <= ln < Street.num_lanes st)%Z ->
      (Z.of_nat (List.length (Street.lane_dirs st)) <= ln)%Z ->
      Vehicle._lane_allows_turn st ln td = inl IndexError).
Proof.
  unfold Vehicle._lane_allows_turn. split; [|split].
  - intros Hout.
    destruct (Z.ltb_spec ln 0); [reflexivity|].
    destruct (Z.geb_spec ln (Street.num_lanes st)); [reflexivity | lia].
  - intros ds Hin Hds.
    destruct (Z.ltb_spec ln 0); [lia|].
    destruct (Z.geb_spec ln (Street.num_lanes st)); [lia|].
    simpl. rewrite Hds. simpl. split; [|apply py_in_spec].
    destruct td; simpl; try reflexivity.
    destruct (Vehicle.py_in Through ds); reflexivity.
  - intros Hin Hshort.
    destruct (Z.ltb_spec ln 0); [lia|].
    destruct (Z.geb_spec ln (Street.num_lanes st)); [lia|].
    simpl. rewrite py_getitem_out_of_range by lia. reflexivity.
Qed.

Lemma lane_allows_turn_spec_witness :
  Vehicle._lane_allows_turn main_street 1 Left = inr (Vehicle.py_in Left [Left; Through])
  /\ (Vehicle.py_in Left [Left; Through] = true <-> In Left [Left; Through]).
Proof.
  apply (proj1 (proj2 (lane_allows_turn_spec main_street 1 Left))).
  - simpl. lia.
  - reflexivity.
Defined.

(** ** Construction *)

(** X14. [__init__] succeeds for the profiles "raser", "normal" and
    "slow_driver" and raises [KeyError] for every other profile. The
    vehicle it makes stands at position 0 with speed 0 at the start of its
    route, is not terminal, is on the street and in the lane given, and has
    a positive speed factor and reaction time. *)
Theorem init_profiles (vehicle_id : Z) (profile : string) (st : Street.t)
    (lane : Z) (route : list Z) (streets : gmap Z Street.t)
    (lights : gmap string Intersection.t) :
  ((exists v, Vehicle.__init__ vehicle_id profile st lane route streets lights
              = inr v)
   <-> profile = "raser"%string \/ profile = "normal"%string
       \/ profile = "slow_driver"%string)
  /\ ((forall v, Vehicle.__init__ vehicle_id profile st lane route streets lights
                 <> inr v) ->
      Vehicle.__init__ vehicle_id profile st lane route streets lights
      = inl KeyError)
  /\ (forall v,
        Vehicle.__init__ vehicle_id profile st lane route streets lights = inr v ->
        Vehicle.position_s v = 0 /\ Vehicle.speed v = 0
        /\ Vehicle.route_index v = 0%Z /\ Vehicle.done v = false
        /\ Vehicle.current_street v = st /\ Vehicle.lane_index v = lane
        /\ Vehicle.route_streets v = route
        /\ 0 < Vehicle.speed_factor v /\ 0 < Vehicle.reaction_time v).
Proof.
  unfold Vehicle.__init__, VEHICLE_PROFILES. cbn [profile_lookup].
  destruct (String.eqb_spec "raser" profile) as [<-|Hr].
  { split; [|split].
    - split; [auto | eauto].
    - intros H. exfalso. eapply H. reflexivity.
    - intros v H. injection H as <-. simpl. repeat split; lra. }
  destruct (String.eqb_spec "normal" profile) as [<-|Hn].
  { split; [|split].
    - split; [auto | eauto].
    - intros H. exfalso. eapply H. reflexivity.
    - intros v H. injection H as <-. simpl. repeat split; lra. }
  destruct (String.eqb_spec "slow_driver" profile) as [<-|Hs].
  { split; [|split].
    - split; [auto | eauto].
    - intros H. exfalso. eapply H. reflexivity.
    - intros v H. injection H as <-. simpl. repeat split; lra. }
  split; [|split].
  - split; [intros [v H]; discriminate|].
    intros [H | [H | H]]; subst; contradiction.
  - reflexivity.
  - intros v H. discriminate.
Qed.

Lemma init_profiles_witness :
  Vehicle.position_s car_new = 0 /\ Vehicle.speed car_new = 0
  /\ Vehicle.route_index car_new = 0%Z /\ Vehicle.done car_new = false
  /\ Vehicle.current_street car_new = main_street
  /\ Vehicle.lane_index car_new = 0%Z
  /\ Vehicle.route_streets car_new = [1%Z; 2%Z]
  /\ 0 < Vehicle.speed_factor car_new /\ 0 < Vehicle.reaction_time car_new.
Proof.
  apply (proj2 (proj2 (init_profiles 7 "normal" main_street 0 [1%Z; 2%Z]
                         network green_lights))).
  reflexivity.
Defined.

(** ** Straight on *)

(** X15. When the first edge of the next street points the same way as the
    last edge of the current street, being a positive multiple of it, the
    turn is classified "through"; so it is when both edges have length
    zero. *)
Theorem collinear_is_through (cur next : Street.t)
    (pre rest : list (R * R)) (c2 c1 n0 n1 : R * R) (k : R) :
  Street.coords cur = pre ++ [c2; c1] ->
  Street.coords next = n0 :: n1 :: rest ->
  0 < k ->
  fst n1 - fst n0 = k * (fst c1 - fst c2) ->
  snd n1 - snd n0 = k * (snd c1 - snd c2) ->
  Vehicle.turn_between cur next = inr Through.
Proof.
  intros Hc Hn Hk Hx Hy.
  rewrite (turn_between_eval cur next pre rest c2 c1 n0 n1 Hc Hn).
  assert (Hd : Vehicle.heading_diff c1 c2 n1 n0 = 0).
  { unfold Vehicle.heading_diff. simpl. rewrite Hx, Hy.
    rewrite atan2_scale by exact Hk. unfold degrees. ring. }
  rewrite Hd, normalize_diff_id by lra. rewrite classify_through by lra.
  reflexivity.
Qed.

Lemma collinear_is_through_witness :
  Vehicle.turn_between main_street ahead_street = inr Through.
Proof.
  apply (collinear_is_through main_street ahead_street [] []
           (0, 0) (100, 0) (100, 0) (150, 0) (1 / 2)).
  - reflexivity.
  - reflexivity.
  - lra.
  - simpl. lra.
  - simpl. lra.
Defined.

(** ** The batches of the fleet *)

Lemma sum_batches (l : list Z) :
  Forall (fun c => (1 <= c)%Z) l ->
  (Z.of_nat (List.length l) <= fold_right Z.add 0 l)%Z
  /\ Forall (fun c => (c <= fold_right Z.add 0 l)%Z) l.
Proof.
  induction 1 as [|c l Hc Hl [IHlen IHall]]; simpl.
  - split; [lia | constructor].
  - split; [lia|]. constructor; [lia|].
    eapply Forall_impl; [exact IHall|]. simpl. intros a Ha. lia.
Qed.

Section PlacementBatches.

Context {layout rng : Type}.
Variable n_streets : nat.
Variable create_vehicle : nat -> Z -> layout -> bool * layout.
Variable seed_rng : Z -> rng.
Variable choice : nat -> rng -> nat * rng.
Variable randint : Z -> Z -> rng -> Z * rng.

Hypothesis randint_range :
  forall (a b : Z) (g : rng), (a <= b)%Z -> (a <= fst (randint a b g) <= b)%Z.

(** Every batch in the log has at least one vehicle. *)
Lemma place_batches (fuel : nat) (s : Simulator.t layout rng) :
  Forall (fun c => (1 <= c)%Z) (Simulator.accepted s) ->
  Forall (fun c => (1 <= c)%Z)
    (Simulator.accepted
       (Simulator.state_of
          (Simulator.place n_streets create_vehicle choice randint fuel s))).
Proof.
  revert s. induction fuel as [|fuel IH]; intros s Hs; simpl.
  - destruct (_ >? 0)%Z; exact Hs.
  - destruct (Z.gtb_spec (Simulator.vehicle_count s) 0) as [Hpos|Hle];
      [|exact Hs].
    destruct (Nat.eqb n_streets 0); [exact Hs|].
    destruct (choice n_streets (Simulator.random_state s)) as [street g1].
    pose proof (randint_range 1 (Simulator.vehicle_count s) g1 ltac:(lia))
      as Hcount.
    destruct (randint 1 (Simulator.vehicle_count s) g1) as [count g2].
    simpl in Hcount.
    destruct (create_vehicle street count (Simulator.city_layout s)) as [ok c'].
    destruct ok; apply IH; simpl; [|exact Hs].
    apply Forall_app. split; [exact Hs|]. constructor; [lia | constructor].
Qed.

End PlacementBatches.

(** X16. Whatever the streets answer, every batch that [_create_vehicles]
    places has at least one vehicle and at most as many as were requested,
    and the loop places at most as many batches as vehicles were
    requested. The request is not negative. *)
Theorem create_vehicles_batches {layout rng : Type} (n_streets : nat)
    (create_vehicle : nat -> Z -> layout -> bool * layout)
    (seed_rng : Z -> rng) (choice : nat -> rng -> nat * rng)
    (randint : Z -> Z -> rng -> Z * rng)
    (fuel : nat) (s : Simulator.t layout rng) :
  (forall (a b : Z) (g : rng),
      (a <= b)%Z -> (a <= fst (randint a b g) <= b)%Z) ->
  (0 <= Simulator.vehicle_count s)%Z ->
  Simulator.accepted s = [] ->
  let log := Simulator.accepted
               (Simulator.state_of
                  (Simulator._create_vehicles n_streets create_vehicle seed_rng
                     choice randint fuel s)) in
  Forall (fun c => (1 <= c <= Simulator.vehicle_count s)%Z) log
  /\ (Z.of_nat (List.length log) <= Simulator.vehicle_count s)%Z.
Proof.
  intros Hrand Hs Hlog log. subst log. unfold Simulator._create_vehicles.
  set (s0 := Simulator.mk _ _ _ _ _).
  set (r := Simulator.state_of
              (Simulator.place n_streets create_vehicle choice randint fuel s0)).
  assert (Hs0 : (0 <= Simulator.vehicle_count s0)%Z) by exact Hs.
  assert (Hp0 : Simulator.placed s0 = 0%Z)
    by (unfold Simulator.placed, s0; simpl; rewrite Hlog; reflexivity).
  pose proof (place_accounts n_streets create_vehicle choice randint Hrand fuel
                s0 Hs0) as [Hsum Hrem].
  fold r in Hsum, Hrem. rewrite Hp0 in Hsum.
  change (Simulator.vehicle_count s0) with (Simulator.vehicle_count s) in *.
  change (Simulator.placed r)
    with (fold_right Z.add 0%Z (Simulator.accepted r)) in Hsum.
  assert (Hone : Forall (fun c => (1 <= c)%Z) (Simulator.accepted r)).
  { apply (place_batches n_streets create_vehicle choice randint Hrand).
    unfold s0. simpl. rewrite Hlog. constructor. }
  destruct (sum_batches _ Hone) as [Hlen Hall].
  split; [|lia].
  apply Forall_forall. intros c Hc.
  rewrite Forall_forall in Hone, Hall.
  specialize (Hone c Hc). specialize (Hall c Hc). simpl in *. lia.
Qed.

Lemma create_vehicles_batches_witness :
  let log := Simulator.accepted
               (Simulator.state_of
                  (Simulator._create_vehicles 1 accepting (fun _ => tt)
                     first_choice largest 10 ten_requested)) in
  Forall (fun c => (1 <= c <= 10)%Z) log
  /\ (Z.of_nat (List.length log) <= 10)%Z.
Proof.
  apply (create_vehicles_batches 1 accepting (fun _ => tt) first_choice largest
           10 ten_requested).
  - intros a b g Hab. simpl. lia.
  - simpl. lia.
  - reflexivity.
Defined.

(** X17. The edges of [_create_vehicles]. A request of no vehicles, or of a
    negative number of them, is left as it is: the loop is not entered, no
    street is asked and nothing is placed. A positive request on a layout
    without streets raises [IndexError] on the first draw, with nothing
    placed. *)
Theorem create_vehicles_edges {layout rng : Type} (n_streets : nat)
    (create_vehicle : nat -> Z -> layout -> bool * layout)
    (seed_rng : Z -> rng) (choice : nat -> rng -> nat * rng)
    (randint : Z -> Z -> rng -> Z * rng)
    (fuel : nat) (s : Simulator.t layout rng) :
  let seeded := Simulator.mk (Simulator.vehicle_count s) (Simulator.seed s)
                  (Simulator.city_layout s) (seed_rng (Simulator.seed s))
                  (Simulator.accepted s) in
  ((Simulator.vehicle_count s <= 0)%Z ->
   Simulator._create_vehicles n_streets create_vehicle seed_rng choice randint
     fuel s = Simulator.Finished seeded)
  /\ ((0 < Simulator.vehicle_count s)%Z ->
      n_streets = O ->
      Simulator._create_vehicles n_streets create_vehicle seed_rng choice randint
        (S fuel) s = Simulator.Raised IndexError seeded).
Proof.
  cbv zeta. unfold Simulator._create_vehicles. split.
  - intros Hle. destruct fuel; simpl;
      destruct (Z.gtb_spec (Simulator.vehicle_count s) 0); (lia || reflexivity).
  - intros Hpos ->. simpl.
    destruct (Z.gtb_spec (Simulator.vehicle_count s) 0); [reflexivity | lia].
Qed.

Lemma create_vehicles_edges_witness :
  Simulator._create_vehicles 0 accepting (fun _ => tt) first_choice largest
    1 ten_requested
  = Simulator.Raised IndexError ten_requested.
Proof.
  apply (proj2 (create_vehicles_edges 0 accepting (fun _ => tt) first_choice
                  largest 0 ten_requested)).
  - simpl. lia.
  - reflexivity.
Defined.

(** ** A life in traffic *)

Lemma leave_street_roadworthy (v : Vehicle.t) :
  roadworthy v -> roadworthy (Vehicle.state_of (Vehicle.leave_street v)).
Proof.
  intros Hv.
  destruct (leave_street_cases v)
    as [-> | [-> | [-> | [-> | (next_id & next_st & Hst & ->)]]]];
    try exact Hv;
    destruct Hv as ([[Hp0 Hp1] Hs] & Hlane & Hcache & Hcap & Hsf & Hcur & Hnet).
  - destruct Hcur as (Hlen & Hlim & Hn).
    assert (0 <= Street.speed_limit (Vehicle.current_street v)
                 * Vehicle.speed_factor v) by (apply Rmult_le_pos; assumption).
    unfold roadworthy, within_street, lane_in_range, limit_cached, speed_capped,
      street_drivable in *.
    simpl. repeat match goal with |- _ /\ _ => split end;
      try assumption; try lra; lia.
  - destruct (Hnet next_id next_st Hst) as (Hlen & Hlim & Hn).
    assert (0 <= Street.speed_limit next_st * Vehicle.speed_factor v)
      by (apply Rmult_le_pos; assumption).
    unfold roadworthy, within_street, lane_in_range, limit_cached, speed_capped,
      street_drivable in *.
    simpl. repeat match goal with |- _ /\ _ => split end;
      try assumption; try lra; lia.
Qed.

Lemma update_roadworthy (dt : R) (leader : option Vehicle.t) (v : Vehicle.t) :
  0 < dt -> roadworthy v ->
  roadworthy (Vehicle.state_of (Vehicle.update dt leader v)).
Proof.
  intros Hdt Hv.
  destruct (update_cases dt leader v) as [-> | (v1 & _ & Hv1 & Hprep & Hend)];
    [exact Hv|].
  destruct (prepared_lane_change v v1 Hprep) as (td & _ & Hlc).
  assert (Hr1 : roadworthy v1).
  { destruct Hv as (Hw & Hlane & Hrest).
    pose proof (lane_change_in_range v v1 td Hlc Hlane) as Hlane1.
    split; [rewrite Hv1; exact Hw|]. split; [exact Hlane1|].
    rewrite Hv1. exact Hrest. }
  destruct Hend as [[_ ->] | [Hlt ->]]; [apply leave_street_roadworthy, Hr1|].
  destruct Hr1 as ([[Hp0 Hp1] Hs] & Hlane & Hcache & Hcap & Hsf & Hcur & Hnet).
  pose proof (new_speed_nonneg dt v1
                (Vehicle.signal_accel v1 (Vehicle.leader_accel v leader))) as Hns.
  assert (Hlimit : 0 <= Street.speed_limit (Vehicle.current_street v1)
                        * Vehicle.speed_factor v1)
    by (destruct Hcur as (_ & Hlim & _); apply Rmult_le_pos; assumption).
  assert (Hstep : 0 <= tick_speed dt leader v v1 * dt)
    by (apply Rmult_le_pos; [exact Hns | lra]).
  split; [|split; [exact Hlane|split; [exact Hcache|split;
            [|split; [exact Hsf|split; [exact Hcur | exact Hnet]]]]]].
  - unfold within_street. simpl. unfold tick_pos, Vehicle.new_pos in *.
    fold (tick_speed dt leader v v1) in *. repeat split; lra.
  - unfold speed_capped. simpl. unfold tick_speed.
    rewrite <- (final_limit_cached v1 Hcache).
    apply new_speed_le_limit. rewrite (final_limit_cached v1 Hcache).
    exact Hlimit.
Qed.

(** X18. A vehicle built by [__init__] on a street with non-negative
    length and speed limit, in one of its lanes, in a network whose streets
    all have non-negative lengths and limits and at least one lane, keeps
    through every sequence of calls of [update] with positive [dt],
    whatever the leaders and the lights: its position within its street,
    its speed between 0 and the street's limit times its speed factor, and
    its lane index within the lanes of its street. *)
Theorem run_roadworthy (vehicle_id : Z) (profile : string) (st : Street.t)
    (lane : Z) (route : list Z) (streets : gmap Z Street.t)
    (lights : gmap string Intersection.t) (v : Vehicle.t)
    (calls : list (R * option Vehicle.t)) :
  Vehicle.__init__ vehicle_id profile st lane route streets lights = inr v ->
  street_drivable st ->
  (0 <= lane < Street.num_lanes st)%Z ->
  network_drivable streets ->
  Forall (fun call => 0 < fst call) calls ->
  within_street (run calls v)
  /\ speed_capped (run calls v)
  /\ lane_in_range (run calls v).
Proof.
  intros Hinit Hst Hlane Hnet Hcalls.
  assert (Hv : roadworthy v).
  { pose proof (init_limit_cached _ _ _ _ _ _ _ _ Hinit) as Hcache.
    unfold Vehicle.__init__, VEHICLE_PROFILES in Hinit.
    cbn [profile_lookup] in Hinit.
    assert (Hsf : 0 < Vehicle.speed_factor v
                  /\ Vehicle.position_s v = 0 /\ Vehicle.speed v = 0
                  /\ Vehicle.current_street v = st
                  /\ Vehicle.lane_index v = lane
                  /\ Vehicle.streets_map v = streets).
    { destruct (String.eqb "raser" profile);
        [injection Hinit as <-; simpl; repeat split; lra|].
      destruct (String.eqb "normal" profile);
        [injection Hinit as <-; simpl; repeat split; lra|].
      destruct (String.eqb "slow_driver" profile);
        [injection Hinit as <-; simpl; repeat split; lra|].
      discriminate. }
    destruct Hsf as (Hsf & Hp & Hs & Hcur & Hln & Hmap).
    destruct Hst as (Hlen & Hlim & Hn).
    assert (0 <= Street.speed_limit st * Vehicle.speed_factor v)
      by (apply Rmult_le_pos; lra).
    unfold roadworthy, within_street, lane_in_range, speed_capped,
      street_drivable.
    rewrite Hp, Hs, Hcur, Hln, Hmap.
    repeat match goal with |- _ /\ _ => split end;
      try assumption; try lra; lia. }
  clear Hinit.
  assert (Hrun : roadworthy (run calls v)).
  { revert v Hv. induction Hcalls as [|[dt leader] calls Hdt Hrest IH];
      intros v Hv; [exact Hv|].
    simpl. apply IH. apply update_roadworthy; [exact Hdt | exact Hv]. }
  destruct Hrun as (Hw & Hl & _ & Hc & _). auto.
Qed.

Lemma network_is_drivable : network_drivable network.
Proof.
  unfold network_drivable, network. intros k st H.
  repeat (apply lookup_insert_Some in H as [[_ <-]|[_ H]];
          [split; [simpl; lra | split; [simpl; lra | simpl; lia]]|]).
  apply lookup_singleton_Some in H as [_ <-].
  split; [simpl; lra | split; [simpl; lra | simpl; lia]].
Qed.

Lemma run_roadworthy_witness :
  within_street (run [(1, None); (0.5, Some car_ahead)] car_new)
  /\ speed_capped (run [(1, None); (0.5, Some car_ahead)] car_new)
  /\ lane_in_range (run [(1, None); (0.5, Some car_ahead)] car_new).
Proof.
  apply (run_roadworthy 7 "normal" main_street 0 [1%Z; 2%Z] network green_lights).
  - reflexivity.
  - split; [simpl; lra | split; [simpl; lra | simpl; lia]].
  - simpl. lia.
  - exact network_is_drivable.
  - repeat constructor; simpl; lra.
Defined.
